(** * GPyOpt_DFT: the data-fusion Expected-Improvement acquisition

    A shallow embedding of [GPyOpt/acquisitions/EI_DFT.py]: the auxiliary
    Gaussian-process builder [GP_model], the probability transform
    [inv_sigmoid], the feasibility evaluator [calc_P], the finite-difference
    gradient [calc_gradient_of_P] and the class [AcquisitionEI_DFT]
    (constructor, [_compute_acq], [_compute_acq_withGradients]).
    [EI_DFT_safecopy20221117.py] is an earlier copy of the same functions.

    Numbers.  numpy's float64 is kept abstract behind the class [Float64].
    Three instances are used: the reals (exact arithmetic: no rounding, no
    overflow), the reals extended with a propagating NaN, and rounded
    arithmetic, in which every operation is the exact one followed by a
    rounding.  What rounding does to a statement is shown on IEEE 754
    binary64 itself, in the module [Binary64].

    Arrays.  A two-dimensional numpy array is its shape together with an
    indexing function; element-wise operations follow numpy's broadcasting
    rule and raise [ValueError] on incompatible shapes.

    Effects.  Python exceptions are the [Raise] case of [result].  The
    model-building code runs in the monad [M], which also records, in
    order, the calls by which [GP_model] builds, bounds and fits a model.
    Predictions are functions of the world and are not recorded.  What lies
    outside the file (GPy's optimizer and predictions, [get_quantiles], the
    memory [np.empty] returns) is a parameter, the class [World]. *)

From Stdlib Require Import Reals Lra Lia List String Bool Arith.
From Stdlib Require Floats.
Import ListNotations.

Declare Scope f64_scope.
Delimit Scope f64_scope with fl.
Declare Scope py_scope.
Delimit Scope py_scope with py.

(** ** float64 *)

Class Float64 (F : Type) : Type := {
  lit : R -> F;               (* a literal or an int promoted to float *)
  f_add : F -> F -> F;
  f_sub : F -> F -> F;
  f_mul : F -> F -> F;
  f_div : F -> F -> F;
  f_exp : F -> F;             (* np.exp *)
  f_le : F -> F -> bool;      (* a <= b *)
  f_eq : F -> F -> bool;      (* a == b *)
  f_max : F -> F -> F;        (* np.maximum, the step of ndarray.max *)
  f_min : F -> F -> F;        (* np.minimum, the step of ndarray.min *)
  f_isnan : F -> bool         (* np.isnan *)
}.

Infix "+" := f_add : f64_scope.
Infix "-" := f_sub : f64_scope.
Infix "*" := f_mul : f64_scope.
Infix "/" := f_div : f64_scope.

(** [a < b], from the two comparisons; false when either side is a NaN. *)
Definition f_lt {F : Type} `{Float64 F} (a b : F) : bool :=
  f_le a b && negb (f_eq a b).

Definition Rleb (a b : R) : bool := if Rle_dec a b then true else false.
Definition Reqb (a b : R) : bool := if Req_dec_T a b then true else false.

(** Exact real arithmetic: what the code computes when nothing is rounded.
    It is used for what holds of the formulas as such and for statements
    that rounding cannot break. *)
#[export] Instance R_Float64 : Float64 R := {
  lit := fun r => r;
  f_add := Rplus; f_sub := Rminus; f_mul := Rmult; f_div := Rdiv;
  f_exp := exp;
  f_le := Rleb; f_eq := Reqb;
  f_max := Rmax; f_min := Rmin;
  f_isnan := fun _ => false
}.

(** Reals with a NaN: every operation on a NaN yields NaN and every
    comparison with a NaN is false, as in IEEE 754.  Only the propagation
    of a NaN that is already there is modelled: on finite arguments the
    operations are the exact ones (no NaN from 0/0, no infinity). *)
Inductive xfloat : Type :=
| Fin (r : R)
| NaN.

Definition xlift1 (f : R -> R) (a : xfloat) : xfloat :=
  match a with Fin x => Fin (f x) | NaN => NaN end.

Definition xlift2 (f : R -> R -> R) (a b : xfloat) : xfloat :=
  match a, b with Fin x, Fin y => Fin (f x y) | _, _ => NaN end.

Definition xcmp (f : R -> R -> bool) (a b : xfloat) : bool :=
  match a, b with Fin x, Fin y => f x y | _, _ => false end.

#[export] Instance xfloat_Float64 : Float64 xfloat := {
  lit := Fin;
  f_add := xlift2 Rplus; f_sub := xlift2 Rminus;
  f_mul := xlift2 Rmult; f_div := xlift2 Rdiv;
  f_exp := xlift1 exp;
  f_le := xcmp Rleb; f_eq := xcmp Reqb;
  f_max := xlift2 Rmax; f_min := xlift2 Rmin;
  f_isnan := fun a => match a with NaN => true | Fin _ => false end
}.

(** Rounded arithmetic: every operation is the exact one followed by the
    rounding [rnd] to a representable number, a literal is rounded too, and
    [np.exp] is a function [fexp] of the library.  With the identity for
    [rnd] and the real exponential for [fexp] this is [R_Float64].
    Overflow and NaN are not modelled. *)
Definition rounded_Float64 (rnd fexp : R -> R) : Float64 R := {|
  lit := rnd;
  f_add := fun a b => rnd (a + b)%R; f_sub := fun a b => rnd (a - b)%R;
  f_mul := fun a b => rnd (a * b)%R; f_div := fun a b => rnd (a / b)%R;
  f_exp := fexp;
  f_le := Rleb; f_eq := Reqb;
  f_max := Rmax; f_min := Rmin;
  f_isnan := fun _ => false
|}.

(** What is assumed of the rounding: it is monotone, it keeps 0, 1, 2 and
    1/2 (they are binary64 numbers), and the literal 1e-12 rounds to a
    positive number. *)
Record rounding (rnd : R -> R) : Prop := {
  rnd_monotone : forall x y, (x <= y)%R -> (rnd x <= rnd y)%R;
  rnd_0 : rnd 0%R = 0%R;
  rnd_1 : rnd 1%R = 1%R;
  rnd_2 : rnd 2%R = 2%R;
  rnd_half : rnd (1 / 2)%R = (1 / 2)%R;
  rnd_floor : (0 < rnd 1e-12)%R
}.

(** What is assumed of the library's exponential: it is monotone, never
    negative, and exp(0) is exactly 1. *)
Record exponential (fexp : R -> R) : Prop := {
  fexp_monotone : forall x y, (x <= y)%R -> (fexp x <= fexp y)%R;
  fexp_nonneg : forall x, (0 <= fexp x)%R;
  fexp_0 : fexp 0%R = 1%R
}.

(** ** Exceptions *)

Inductive exn : Type :=
| AttributeError | TypeError | KeyError | ValueError | IndexError
| AssertionError.

Inductive result (A : Type) : Type :=
| Ok (a : A)
| Raise (e : exn).
Arguments Ok {A} a.
Arguments Raise {A} e.

Definition rbind {A B} (c : result A) (k : A -> result B) : result B :=
  match c with Ok a => k a | Raise e => Raise e end.

Notation "x <- c ;; k" := (rbind c (fun x => k))
  (at level 61, c at next level, right associativity) : py_scope.
Notation "' pat <- c ;; k" := (rbind c (fun x => match x with pat => k end))
  (at level 61, pat pattern, c at next level, right associativity) : py_scope.

(** ** numpy arrays *)

Section Arrays.
Context {F : Type} `{Float64 F}.

(** One-dimensional array. *)
Record vec : Type := mk_vec { vlen : nat; vget : nat -> F }.

(** Two-dimensional array; [get] is only meaningful below the shape. *)
Record ndarray : Type := mk_array { nrows : nat; ncols : nat; get : nat -> nat -> F }.

Definition shape (a : ndarray) : nat * nat := (nrows a, ncols a).

(** [a.copy()] *)
Definition copy (a : ndarray) : ndarray := mk_array (nrows a) (ncols a) (get a).

(** Array with every entry equal to [c]: [np.zeros(shape)], [np.ones(shape)]. *)
Definition np_full (s : nat * nat) (c : F) : ndarray :=
  mk_array (fst s) (snd s) (fun _ _ => c).
Definition np_zeros (s : nat * nat) : ndarray := np_full s (lit 0).
Definition np_ones (s : nat * nat) : ndarray := np_full s (lit 1).

(** Array (op) scalar. *)
Definition arr_map (f : F -> F) (a : ndarray) : ndarray :=
  mk_array (nrows a) (ncols a) (fun i j => f (get a i j)).
Definition vec_map (f : F -> F) (v : vec) : vec :=
  mk_vec (vlen v) (fun i => f (vget v i)).

(** numpy's broadcasting rule along one axis. *)
Definition bdim (a b : nat) : option nat :=
  if a =? b then Some a
  else if a =? 1 then Some b
  else if b =? 1 then Some a
  else None.

Definition bidx (len i : nat) : nat := if len =? 1 then 0%nat else i.

(** Array (op) array, with broadcasting. *)
Definition broadcast2 (f : F -> F -> F) (a b : ndarray) : result ndarray :=
  match bdim (nrows a) (nrows b), bdim (ncols a) (ncols b) with
  | Some n, Some d =>
      Ok (mk_array n d (fun i j =>
            f (get a (bidx (nrows a) i) (bidx (ncols a) j))
              (get b (bidx (nrows b) i) (bidx (ncols b) j))))
  | _, _ => Raise ValueError
  end.

Definition arr_add := broadcast2 f_add.
Definition arr_sub := broadcast2 f_sub.
Definition arr_mul := broadcast2 f_mul.

(** [a[:, i]] *)
Definition get_col (a : ndarray) (i : nat) : result vec :=
  if i <? ncols a then Ok (mk_vec (nrows a) (fun r => get a r i))
  else Raise IndexError.

(** [a[:, i] = v] *)
Definition set_col (a : ndarray) (i : nat) (v : vec) : result ndarray :=
  if i <? ncols a then
    if vlen v =? nrows a then
      Ok (mk_array (nrows a) (ncols a)
            (fun r c => if c =? i then vget v r else get a r c))
    else if vlen v =? 1 then          (* a single value is broadcast *)
      Ok (mk_array (nrows a) (ncols a)
            (fun r c => if c =? i then vget v 0 else get a r c))
    else Raise ValueError
  else Raise IndexError.

(** [np.ravel(a)] (row-major) *)
Definition np_ravel (a : ndarray) : vec :=
  mk_vec (nrows a * ncols a)
         (fun k => get a (k / ncols a) (k mod ncols a)).

(** The entries in row-major order. *)
Definition entries (a : ndarray) : list F :=
  flat_map (fun r => map (get a r) (seq 0 (ncols a))) (seq 0 (nrows a)).

(** [np.any(np.isnan(a))] *)
Definition any_isnan (a : ndarray) : bool := existsb f_isnan (entries a).

Definition f_sum (l : list F) : F := fold_left f_add l (lit 0).

(** [a.var()]: the population variance of all entries. *)
Definition arr_var (a : ndarray) : F :=
  let l := entries a in
  let n := lit (INR (List.length l)) in
  let arrmean := (f_sum l / n)%fl in
  let x := map (fun y => (y - arrmean)%fl) l in
  (f_sum (map (fun d => (d * d)%fl) x) / n)%fl.

(** [a.max()] and [a.min()]; numpy raises on a zero-size array. *)
Definition reduce (f : F -> F -> F) (a : ndarray) : result F :=
  match entries a with
  | [] => Raise ValueError
  | y :: l => Ok (fold_left f l y)
  end.
Definition arr_max := reduce f_max.
Definition arr_min := reduce f_min.

End Arrays.

Arguments vec F : clear implicits.
Arguments ndarray F : clear implicits.

Infix "+!" := arr_add (at level 50, left associativity) : py_scope.
Infix "-!" := arr_sub (at level 50, left associativity) : py_scope.
Infix "*!" := arr_mul (at level 40, left associativity) : py_scope.

(** ** Loops with an early [return] *)

Inductive flow (S V : Type) : Type :=
| Next (s : S)        (* the body ran to its end *)
| Return (v : V).     (* the body executed [return v] *)
Arguments Next {S V} s.
Arguments Return {S V} v.

(** [for i in l: body], threading the loop-carried state. *)
Fixpoint for_in {I S V : Type} (l : list I)
         (body : I -> S -> result (flow S V)) (s : S) : result (flow S V) :=
  match l with
  | [] => Ok (Next s)
  | i :: l' =>
      match body i s with
      | Ok (Next s') => for_in l' body s'
      | Ok (Return v) => Ok (Return v)
      | Raise e => Raise e
      end
  end.

Definition range (n : nat) : list nat := seq 0 n.

(** ** pandas data frames *)

(** A table: its column labels, its number of rows and its cells. *)
Record DataFrame (F : Type) : Type := mk_frame {
  df_columns : list string;
  df_nrows : nat;
  df_cell : nat -> string -> F
}.
Arguments mk_frame {F}.
Arguments df_columns {F}.
Arguments df_nrows {F}.
Arguments df_cell {F}.

(** [df.empty]: true when either axis has length zero. *)
Definition df_empty {F} (df : DataFrame F) : bool :=
  (df_nrows df =? 0) || (List.length (df_columns df) =? 0).

Definition has_column {F} (df : DataFrame F) (c : string) : bool :=
  existsb (String.eqb c) (df_columns df).

(** [df[labels].values] for a list of labels; a label is a string or
    Python's [None], and a label that is no column raises [KeyError]. *)
Definition df_values {F} (df : DataFrame F) (labels : list (option string))
  : result (ndarray F) :=
  if forallb (fun l => match l with
                       | Some c => has_column df c
                       | None => false
                       end) labels
  then Ok (mk_array (df_nrows df) (List.length labels)
             (fun r j => df_cell df r
                           (match nth j labels None with
                            | Some c => c
                            | None => EmptyString
                            end)))
  else Raise KeyError.

(** ** GPy objects *)

Record Matern52 (F : Type) : Type := mk_Matern52 {
  input_dim : nat;
  k_lengthscale : F;                       (* kern.lengthscale *)
  k_variance : F;                          (* kern.variance *)
  k_variance_bounds : option (F * F)
}.
Arguments mk_Matern52 {F}.
Arguments input_dim {F}.
Arguments k_lengthscale {F}.
Arguments k_variance {F}.
Arguments k_variance_bounds {F}.

Record GPRegression (F : Type) : Type := mk_GPRegression {
  gp_X : ndarray F;
  gp_Y : ndarray F;
  kern : Matern52 F;
  Gaussian_noise : F;
  Gaussian_noise_bounds : option (F * F)
}.
Arguments mk_GPRegression {F}.
Arguments gp_X {F}.
Arguments gp_Y {F}.
Arguments kern {F}.
Arguments Gaussian_noise {F}.
Arguments Gaussian_noise_bounds {F}.

(** The calls by which [GP_model] builds, bounds and fits a model, as they
    appear in it.  A prediction ([predict_noiseless]) changes nothing and is
    not a [call]: an unchanged log says that no model was built, bounded or
    fitted. *)
Inductive call (F : Type) : Type :=
| GPy_kern_Matern52 (input_dim : nat) (lengthscale variance : F)
| GPy_models_GPRegression (X Y : ndarray F) (noise_var : F)
| Gaussian_noise_constrain_bounded (lower upper : F)
| Mat52_variance_constrain_bounded (lower upper : F)
| optimize_restarts (max_iters num_restarts : nat).
Arguments GPy_kern_Matern52 {F}.
Arguments GPy_models_GPRegression {F}.
Arguments Gaussian_noise_constrain_bounded {F}.
Arguments Mat52_variance_constrain_bounded {F}.
Arguments optimize_restarts {F}.

(** What the code takes from outside this file. *)
Class World (F : Type) : Type := {
  (* the contents of the memory handed out by [np.empty] *)
  uninitialized : nat -> nat -> F;
  (* [GPyOpt.util.general.get_quantiles(jitter, fmin, m, s)]: (phi, Phi, u) *)
  get_quantiles : F -> F -> ndarray F -> ndarray F
                  -> ndarray F * ndarray F * ndarray F;
  (* the hyperparameters (lengthscale, variance, noise variance) GPy's
     optimizer settles on for a model, given max_iters and num_restarts *)
  gpy_optimum : GPRegression F -> nat -> nat -> F * F * F;
  (* [model.predict_noiseless(points)]: (mean, variance) *)
  predict_noiseless : GPRegression F -> ndarray F -> ndarray F * ndarray F;
  (* the grid of compositions [create_ternary_grid()] builds for plotting:
     an array of three columns with at least one row (the function takes no
     argument and always builds the same grid) *)
  create_ternary_grid : ndarray F
}.

Definition np_empty {F} `{World F} (s : nat * nat) : ndarray F :=
  mk_array (fst s) (snd s) uninitialized.

(** ** The monad of the model-building code: exceptions and the call log *)

Definition M (F A : Type) : Type := list (call F) -> result A * list (call F).

Definition ret {F A} (a : A) : M F A := fun log => (Ok a, log).
Definition raise {F A} (e : exn) : M F A := fun log => (Raise e, log).
Definition bind {F A B} (c : M F A) (k : A -> M F B) : M F B :=
  fun log => match c log with
             | (Ok a, log') => k a log'
             | (Raise e, log') => (Raise e, log')
             end.
Definition lift {F A} (r : result A) : M F A := fun log => (r, log).
Definition emit {F} (c : call F) : M F unit := fun log => (Ok tt, log ++ [c]).

Declare Scope M_scope.
Delimit Scope M_scope with M.
Notation "x <- c ;; k" := (bind c (fun x => k))
  (at level 61, c at next level, right associativity) : M_scope.
Notation "' pat <- c ;; k" := (bind c (fun x => match x with pat => k end))
  (at level 61, pat pattern, c at next level, right associativity) : M_scope.
Notation "c ;;; k" := (bind c (fun _ => k))
  (at level 61, right associativity) : M_scope.

Section Model.
Context {F : Type} `{Float64 F} `{World F}.

(** *** GPy's interface *)

Definition Matern52_new (input_dim : nat) (lengthscale variance : F)
  : M F (Matern52 F) :=
  (emit (GPy_kern_Matern52 input_dim lengthscale variance) ;;;
   ret (mk_Matern52 input_dim lengthscale variance None))%M.

Definition GPRegression_new (X Y : ndarray F) (kernel : Matern52 F) (noise_var : F)
  : M F (GPRegression F) :=
  (emit (GPy_models_GPRegression X Y noise_var) ;;;
   ret (mk_GPRegression X Y kernel noise_var None))%M.

(** [param.constrain_bounded(lower, upper)] builds paramz's
    [Logistic(lower, upper)] transformation, whose constructor starts with
    [assert lower < upper]: an empty or inverted interval raises
    [AssertionError] and nothing is constrained. *)
Definition constrain_bounded_noise (lower upper : F) (model : GPRegression F)
  : M F (GPRegression F) :=
  (if f_lt lower upper then
     emit (Gaussian_noise_constrain_bounded lower upper) ;;;
     ret (mk_GPRegression (gp_X model) (gp_Y model) (kern model)
            (Gaussian_noise model) (Some (lower, upper)))
   else raise AssertionError)%M.

Definition constrain_bounded_variance (lower upper : F) (model : GPRegression F)
  : M F (GPRegression F) :=
  (if f_lt lower upper then
     emit (Mat52_variance_constrain_bounded lower upper) ;;;
     let k := kern model in
     ret (mk_GPRegression (gp_X model) (gp_Y model)
            (mk_Matern52 (input_dim k) (k_lengthscale k) (k_variance k)
               (Some (lower, upper)))
            (Gaussian_noise model) (Gaussian_noise_bounds model))
   else raise AssertionError)%M.

(** [model.optimize_restarts(max_iters, num_restarts)]: the model keeps its
    data and bounds and takes the hyperparameters the optimizer found. *)
Definition model_optimize_restarts (max_iters num_restarts : nat)
           (model : GPRegression F) : M F (GPRegression F) :=
  (emit (optimize_restarts max_iters num_restarts) ;;;
   let '(ls, var, noise) := gpy_optimum model max_iters num_restarts in
   let k := kern model in
   ret (mk_GPRegression (gp_X model) (gp_Y model)
          (mk_Matern52 (input_dim k) ls var (k_variance_bounds k))
          noise (Gaussian_noise_bounds model)))%M.

(** *** [GP_model]
    (defaults of the source: target 'dGmix (ev/f.u.)', lengthscale 0.03,
    variance 2, noise_variance None, inputs CsPbI, MAPbI, FAPbI) *)
Definition GP_model (data_fusion_data : option (DataFrame F))
           (data_fusion_target_variable : option string)
           (lengthscale variance noise_variance : option F)
           (data_fusion_input_variables : option (list string))
  : M F (option (GPRegression F)) :=
  match data_fusion_data with
  | None => ret None
  | Some data =>
    if df_empty data then ret None
    else
      (X <- lift (match data_fusion_input_variables with
                  | Some vars => df_values data (map Some vars)
                  | None => Raise KeyError
                  end) ;;
       Y <- lift (df_values data [data_fusion_target_variable]) ;;
       (* Init value for noise_var, GPy will optimize it further. *)
       let noise_var_limit := lit 1e-12 in
       let auto_noise_var :=
         let noise_var := (lit 0.01 * arr_var Y)%fl in
         (* Noise_variance should not be zero. *)
         if f_eq noise_var (lit 0) then noise_var_limit else noise_var in
       let noise_var :=
         match noise_variance with
         | None => auto_noise_var
         | Some noise_var =>
             if f_le noise_var (lit 0) then auto_noise_var else noise_var
         end in
       (* Set hyperparameter initial guesses. *)
       let auto_kernel_var :=
         let kernel_var := arr_var Y in
         if f_eq kernel_var (lit 0) then lit 1 else kernel_var in
       let kernel_var :=
         match variance with
         | None => auto_kernel_var
         | Some kernel_var =>
             if f_le kernel_var (lit 0) then auto_kernel_var else kernel_var
         end in
       let auto_kernel_ls :=
         (hi <- arr_max X ;;
          lo <- arr_min X ;;
          let kernel_ls := (hi - lo)%fl in
          Ok (if f_eq kernel_ls (lit 0) then lit 1 else kernel_ls))%py in
       kernel_ls <- lift (match lengthscale with
                          | None => auto_kernel_ls
                          | Some kernel_ls =>
                              if f_le kernel_ls (lit 0) then auto_kernel_ls
                              else Ok kernel_ls
                          end) ;;
       (* Define the kernel and model. *)
       kernel <- Matern52_new (ncols X) kernel_ls kernel_var ;;
       model <- GPRegression_new X Y kernel noise_var ;;
       Ymax <- lift (arr_max Y) ;;
       model <- constrain_bounded_noise noise_var_limit
                  (noise_var + Ymax * Ymax)%fl model ;;
       (* variance*1e-12 with variance None is a TypeError *)
       variance <- lift (match variance with
                         | Some v => Ok v
                         | None => Raise TypeError
                         end) ;;
       Ymax <- lift (arr_max Y) ;;
       model <- constrain_bounded_variance (variance * lit 1e-12)%fl
                  (variance + Ymax * Ymax)%fl model ;;
       (* optimize *)
       model <- model_optimize_restarts 1000 5 model ;;
       ret (Some model))%M
  end.

(** *** [inv_sigmoid], on one entry of the array of means *)
Definition inv_sigmoid (mean midpoint beta : F) : F :=
  (* Inverted because the negative Gibbs energies are the ones that are stable. *)
  (lit 1 / (lit 1 + f_exp ((mean - midpoint) / beta)))%fl.

(** *** [calc_P] (defaults of the source: beta 0.025, midpoint 0) *)
Definition calc_P (points : ndarray F) (GP_model : option (GPRegression F))
           (beta midpoint : F) : ndarray F * ndarray F :=
  match GP_model with
  | Some GP_model =>
      let mean := predict_noiseless GP_model points in
      let mean := fst mean in
      let propability := arr_map (fun m => inv_sigmoid m midpoint beta) mean in
      (mean, propability)
  | None =>
      let mean := arr_map (fun z => (z + lit 0.5)%fl)
                          (np_zeros (nrows points, 1%nat)) in
      let propability := np_ones (nrows points, 1%nat) in
      (mean, propability)
  end.

(** *** [calc_gradient_of_P]
    The [return g] of the source stands inside the loop body; a function
    whose loop body never runs falls off its end and returns [None]. *)
Definition calc_gradient_of_P (x : ndarray F)
           (constraint_model : option (GPRegression F))
           (beta midpoint lengthscale : F) : result (option (ndarray F)) :=
  (* Step for numerical gradient. *)
  let delta_x := (lengthscale / lit 1000)%fl in
  let g := np_empty (shape x) in
  (r <- for_in (range (ncols x))
         (fun i g =>
            let x_l := copy x in
            let x_u := copy x in
            c_l <- get_col x_l i ;;
            x_l <- set_col x_l i (vec_map (fun v => (v - delta_x)%fl) c_l) ;;
            c_u <- get_col x_u i ;;
            x_u <- set_col x_u i (vec_map (fun v => (v + delta_x)%fl) c_u) ;;
            let '(_, p_l) := calc_P x_l constraint_model beta midpoint in
            let '(_, p_u) := calc_P x_u constraint_model beta midpoint in
            d <- p_u -! p_l ;;
            let q := arr_map (fun v => (v / (lit 2 * delta_x))%fl) d in
            g <- set_col g i (np_ravel q) ;;
            Ok (Return (Some g)))
         g ;;
   match r with
   | Return v => Ok v
   | Next _ => Ok None
   end)%py.

End Model.

(** ** The class [AcquisitionEI_DFT] *)

(** The primary surrogate handed to the constructor (a GPyOpt model). *)
Record PrimaryModel (F : Type) : Type := mk_PrimaryModel {
  predict : ndarray F -> ndarray F * ndarray F;
  get_fmin : F;
  predict_withGradients :
    ndarray F -> ndarray F * ndarray F * ndarray F * ndarray F
}.
Arguments mk_PrimaryModel {F}.
Arguments predict {F}.
Arguments get_fmin {F}.
Arguments predict_withGradients {F}.

(** The dictionary [ei_dft_params].  Each field is [None] when the key is
    absent from the dictionary and [Some v] when it maps to [v]; a value
    that may itself be Python's [None] is an [option] again. *)
Record params (F : Type) : Type := mk_params {
  df_data : option (option (DataFrame F));
  df_target_var : option (option string);
  df_input_var : option (option (list string));
  gp_lengthscale : option (option F);
  gp_variance : option (option F);
  p_beta : option F;
  p_midpoint : option F;
  df_model : option (option (GPRegression F))
}.
Arguments mk_params {F}.
Arguments df_data {F}.
Arguments df_target_var {F}.
Arguments df_input_var {F}.
Arguments gp_lengthscale {F}.
Arguments gp_variance {F}.
Arguments p_beta {F}.
Arguments p_midpoint {F}.
Arguments df_model {F}.

(** The instance after [__init__].  [midpoint] is [None] when the attribute
    was never assigned; reading it then raises [AttributeError]. *)
Record AcquisitionEI_DFT (F : Type) : Type := mk_AcquisitionEI_DFT {
  model : PrimaryModel F;
  jitter : F;
  data_fusion_target_variable : option string;
  data_fusion_input_variables : option (list string);
  constraint_model : option (GPRegression F);
  data_fusion_data : option (DataFrame F);
  lengthscale : F;
  variance : F;
  beta : F;
  midpoint : option F
}.
Arguments mk_AcquisitionEI_DFT {F}.
Arguments model {F}.
Arguments jitter {F}.
Arguments data_fusion_target_variable {F}.
Arguments data_fusion_input_variables {F}.
Arguments constraint_model {F}.
Arguments data_fusion_data {F}.
Arguments lengthscale {F}.
Arguments variance {F}.
Arguments beta {F}.
Arguments midpoint {F}.

Definition getattr {A} (a : option A) : result A :=
  match a with Some v => Ok v | None => Raise AttributeError end.

Definition str_is (s : option string) (c : string) : bool :=
  match s with Some s' => String.eqb s' c | None => false end.

Section Acquisition.
Context {F : Type} `{Float64 F} `{World F}.

(** Default values. *)
Definition default_params : params F :=
  {| df_data := Some None;
     df_target_var := Some None;
     df_input_var := Some None;
     gp_lengthscale := Some (Some (lit 0.03));
     gp_variance := Some (Some (lit 2));
     p_beta := Some (lit 0.025);
     p_midpoint := Some (lit 0);
     df_model := Some None |}.

(** [plot_P].  In this file [calc_P] returns a pair, and [plot_P] unpacks
    its result into three names, which raises [ValueError]. *)
Definition unpack3 {A B C} (t : A * B) : result (A * B * C) := Raise ValueError.

Definition plot_P (GP_model : option (GPRegression F)) (beta : F)
           (data_type : string) (midpoint : F) : result (F * F) :=
  let points := create_ternary_grid in
  ('(mean, propability, conf_interval) <-
      unpack3 (C := unit) (calc_P points GP_model beta midpoint) ;;
   minP <- arr_min propability ;;
   maxP <- arr_max propability ;;
   Ok (minP, maxP))%py.

(** [AcquisitionEI_DFT.__init__(model, space, optimizer, cost_withGradients,
    jitter, ei_dft_params)]; the base class stores [model], [space],
    [optimizer] and the cost, which nothing below reads except [model]. *)
Definition __init__ (model : PrimaryModel F) (jitter : F)
           (ei_dft_params : option (params F)) : M F (AcquisitionEI_DFT F) :=
  let ei_dft_params :=
    match ei_dft_params with
    | None => default_params
    | Some p => p
    end in
  let data_fusion_target_variable :=
    match df_target_var ei_dft_params with Some v => v | None => None end in
  let data_fusion_input_variables :=
    match df_input_var ei_dft_params with Some v => v | None => None end in
  ('(constraint_model, data_fusion_data) <-
      match df_model ei_dft_params with
      | Some m =>
          (* Data is not used for anything if the model already exists. *)
          ret (m, None)
      | None =>
          let data_fusion_data :=
            match df_data ei_dft_params with Some v => v | None => None end in
          (* Initialize to the given values. *)
          let lengthscale :=
            match gp_lengthscale ei_dft_params with
            | Some v => v
            | None => Some (lit 0.03)
            end in
          let variance :=
            match gp_variance ei_dft_params with
            | Some v => v
            | None => Some (lit 2)
            end in
          m <- GP_model data_fusion_data data_fusion_target_variable
                 lengthscale variance None data_fusion_input_variables ;;
          ret (m, data_fusion_data)
      end ;;
   (* Let's update with the fitted model hyperparameter values. *)
   cm <- lift (getattr constraint_model) ;;
   let lengthscale := k_lengthscale (kern cm) in
   let variance := k_variance (kern cm) in
   let beta :=
     match p_beta ei_dft_params with
     | Some v => v
     | None => lit 0.025
     end in
   let '(beta, midpoint) :=
     match p_midpoint ei_dft_params with
     | Some v => (beta, Some v)
     | None => (lit 0, None)          (* [self.beta = 0] *)
     end in
   n <- lift (match data_fusion_input_variables with
              | Some vars => Ok (List.length vars)
              | None => Raise TypeError
              end) ;;
   (if n =? 3 then
      (* Plot the data. *)
      (if str_is data_fusion_target_variable "dGmix (ev/f.u.)" then
         (mp <- lift (getattr midpoint) ;;
          lift (plot_P constraint_model beta "dft" mp) ;;; ret tt)
       else ret tt) ;;;
      (if str_is data_fusion_target_variable "Yellowness" then
         (mp <- lift (getattr midpoint) ;;
          lift (plot_P constraint_model beta "yellowness" mp) ;;; ret tt)
       else ret tt)
    else ret tt) ;;;
   ret {| model := model; jitter := jitter;
          data_fusion_target_variable := data_fusion_target_variable;
          data_fusion_input_variables := data_fusion_input_variables;
          constraint_model := constraint_model;
          data_fusion_data := data_fusion_data;
          lengthscale := lengthscale; variance := variance;
          beta := beta; midpoint := midpoint |})%M.

(** [fromConfig] does not pass [ei_dft_params] on. *)
Definition fromConfig (model : PrimaryModel F) (jitter : F)
           (ei_dft_params : option (params F)) : M F (AcquisitionEI_DFT F) :=
  __init__ model jitter None.

(** [_compute_acq] *)
Definition _compute_acq (self : AcquisitionEI_DFT F) (x : ndarray F)
  : result (ndarray F) :=
  let '(m, s) := predict (model self) x in
  let fmin := get_fmin (model self) in
  let '(phi, Phi, u) := get_quantiles (jitter self) fmin m s in
  (t <- u *! Phi ;;
   t <- t +! phi ;;
   f_acqu <- s *! t ;;
   midpoint <- getattr (midpoint self) ;;
   let '(_, prob) := calc_P x (constraint_model self) (beta self) midpoint in
   f_acqu <- f_acqu *! prob ;;
   (* message = 'Exploitation ' + str(s*u*Phi*prob)
                + ', exploration ' + str(s*phi*prob); never logged *)
   e <- s *! u ;;
   e <- e *! Phi ;;
   exploitation <- e *! prob ;;
   e <- s *! phi ;;
   exploration <- e *! prob ;;
   Ok f_acqu)%py.

(** [_compute_acq_withGradients] *)
Definition _compute_acq_withGradients (self : AcquisitionEI_DFT F)
           (x : ndarray F) : result (ndarray F * ndarray F) :=
  let fmin := get_fmin (model self) in
  let '(m, s, dmdx, dsdx) := predict_withGradients (model self) x in
  let '(phi, Phi, u) := get_quantiles (jitter self) fmin m s in
  (t <- u *! Phi ;;
   t <- t +! phi ;;
   f_acqu <- s *! t ;;
   a <- dsdx *! phi ;;
   b <- Phi *! dmdx ;;
   df_acqu <- a -! b ;;
   (* the message is built and dropped: the logging call is commented out *)
   let message :=
     if any_isnan x then Some "x contains nan:"%string else None in
   midpoint <- getattr (midpoint self) ;;
   let '(_, prob) := calc_P x (constraint_model self) (beta self) midpoint in
   f_acqu <- f_acqu *! prob ;;
   d_prob <- calc_gradient_of_P x (constraint_model self) (beta self)
               midpoint (lengthscale self) ;;
   a <- df_acqu *! prob ;;
   (* an array times None is a TypeError *)
   d_prob <- match d_prob with Some g => Ok g | None => Raise TypeError end ;;
   b <- f_acqu *! d_prob ;;
   df_acqu <- a +! b ;;
   Ok (f_acqu, df_acqu))%py.

End Acquisition.

(** ** Notions used to state the properties *)

Section Notions.
Context {F : Type} `{Float64 F} `{World F}.

(** The batch [x] with [f] applied to column [i] only. *)
Definition shifted (x : ndarray F) (i : nat) (f : F -> F) : ndarray F :=
  mk_array (nrows x) (ncols x)
    (fun r c => if c =? i then f (get x r i) else get x r c).

(** The probability [calc_P] gives to row [r] of a batch. *)
Definition probability (points : ndarray F) (cm : option (GPRegression F))
           (beta midpoint : F) (r : nat) : F :=
  get (snd (calc_P points cm beta midpoint)) r 0.

(** The symmetric central difference (p_upper - p_lower) / (2*delta) of the
    probability of row [r] along dimension [i], delta = lengthscale/1000. *)
Definition central_difference (x : ndarray F) (cm : option (GPRegression F))
           (beta midpoint lengthscale : F) (r i : nat) : F :=
  let delta := (lengthscale / lit 1000)%fl in
  let p_lower :=
    probability (shifted x i (fun v => (v - delta)%fl)) cm beta midpoint r in
  let p_upper :=
    probability (shifted x i (fun v => (v + delta)%fl)) cm beta midpoint r in
  ((p_upper - p_lower) / (lit 2 * delta))%fl.

(** The auxiliary surrogate answers a batch of n points with n means. *)
Definition surrogate_shaped (cm : option (GPRegression F)) : Prop :=
  forall m points, cm = Some m ->
    shape (fst (predict_noiseless m points)) = (nrows points, 1%nat).

(** Expected Improvement s*(u*Phi + phi) of row [r], from [predict]. *)
Definition EI (self : AcquisitionEI_DFT F) (x : ndarray F) (r : nat) : F :=
  let '(m, s) := predict (model self) x in
  let '(phi, Phi, u) :=
    get_quantiles (jitter self) (get_fmin (model self)) m s in
  (get s r 0 * (get u r 0 * get Phi r 0 + get phi r 0))%fl.

(** The primary model answers a batch of n points with n-by-1 arrays. *)
Definition primary_shaped (self : AcquisitionEI_DFT F) (x : ndarray F) : Prop :=
  let '(m, s) := predict (model self) x in
  let '(phi, Phi, u) :=
    get_quantiles (jitter self) (get_fmin (model self)) m s in
  shape s = (nrows x, 1%nat) /\ shape phi = (nrows x, 1%nat) /\
  shape Phi = (nrows x, 1%nat) /\ shape u = (nrows x, 1%nat).

(** The same from [predict_withGradients], with the gradients
    d_EI = dsdx*phi - Phi*dmdx. *)
Definition EI_wg (self : AcquisitionEI_DFT F) (x : ndarray F) (r : nat) : F :=
  let '(m, s, dmdx, dsdx) := predict_withGradients (model self) x in
  let '(phi, Phi, u) :=
    get_quantiles (jitter self) (get_fmin (model self)) m s in
  (get s r 0 * (get u r 0 * get Phi r 0 + get phi r 0))%fl.

Definition d_EI (self : AcquisitionEI_DFT F) (x : ndarray F) (r c : nat) : F :=
  let '(m, s, dmdx, dsdx) := predict_withGradients (model self) x in
  let '(phi, Phi, u) :=
    get_quantiles (jitter self) (get_fmin (model self)) m s in
  (get dsdx r c * get phi r 0 - get Phi r 0 * get dmdx r c)%fl.

Definition primary_shaped_wg (self : AcquisitionEI_DFT F) (x : ndarray F) : Prop :=
  let '(m, s, dmdx, dsdx) := predict_withGradients (model self) x in
  let '(phi, Phi, u) :=
    get_quantiles (jitter self) (get_fmin (model self)) m s in
  shape s = (nrows x, 1%nat) /\ shape phi = (nrows x, 1%nat) /\
  shape Phi = (nrows x, 1%nat) /\ shape u = (nrows x, 1%nat) /\
  shape dmdx = shape x /\ shape dsdx = shape x.

(** The frame holds the target column and every input column. *)
Definition frame_has (data : DataFrame F) (target : string)
           (inputs : list string) : Prop :=
  has_column data target = true /\
  forallb (has_column data) inputs = true.

(** All entries of the array are equal. *)
Definition constant (a : ndarray F) : Prop :=
  forall y z, In y (entries a) -> In z (entries a) -> y = z.

(** The value kept for a hyperparameter: the supplied one unless it is
    missing or not positive; then the estimate, or [floor] when the estimate
    is exactly zero. *)
Definition corrected_value (supplied : option F) (estimate floor : F) : F :=
  let auto := if f_eq estimate (lit 0) then floor else estimate in
  match supplied with
  | None => auto
  | Some v => if f_le v (lit 0) then auto else v
  end.

End Notions.


(** ** Sample collaborators and inputs *)

Section Samples.
Context {F : Type} `{Float64 F}.

(** A world in which fresh memory holds zeros, the optimizer keeps the
    initial hyperparameters, the surrogate's posterior mean at a point is
    the sum of its coordinates, the quantile function returns
    u = (fmin - m - jitter)/s with phi = 0.4 and Phi = 0.5 (about the values
    of the normal density and distribution at u = 0), and the plotting grid
    is cut down to one of its points, (0.5, 0.5, 0). *)
Definition sample_world : World F :=
  {| uninitialized := fun _ _ => lit 0;
     get_quantiles := fun jitter fmin m s =>
       (np_full (nrows m, 1%nat) (lit 0.4),
        np_full (nrows m, 1%nat) (lit 0.5),
        mk_array (nrows m) 1
          (fun r c => ((fmin - get m r c - jitter) / get s r c)%fl));
     gpy_optimum := fun m _ _ =>
       (k_lengthscale (kern m), k_variance (kern m), Gaussian_noise m);
     predict_noiseless := fun _ points =>
       (mk_array (nrows points) 1
          (fun r _ => f_sum (map (get points r) (seq 0 (ncols points)))),
        np_zeros (nrows points, 1%nat));
     create_ternary_grid :=
       mk_array 1 3 (fun _ c => nth c [lit 0.5; lit 0.5; lit 0] (lit 0)) |}.

(** A primary model with mean m(x) = x_0 and standard deviation 1. *)
Definition sample_primary : PrimaryModel F :=
  {| predict := fun x =>
       (mk_array (nrows x) 1 (fun r _ => get x r 0), np_ones (nrows x, 1%nat));
     get_fmin := lit 0.01;
     predict_withGradients := fun x =>
       (mk_array (nrows x) 1 (fun r _ => get x r 0),
        np_ones (nrows x, 1%nat),
        mk_array (nrows x) (ncols x)
          (fun _ c => if c =? 0 then lit 1 else lit 0),
        np_zeros (shape x)) |}.

(** A fitted surrogate over [d] inputs. *)
Definition sample_surrogate (d : nat) : GPRegression F :=
  mk_GPRegression (np_zeros (1%nat, d)) (np_zeros (1%nat, 1%nat))
    (mk_Matern52 d (lit 1000) (lit 2) None) (lit 1) None.

(** The one-row batch with the given coordinates. *)
Definition row (l : list F) : ndarray F :=
  mk_array 1 (List.length l) (fun _ c => nth c l (lit 0)).

(** An instance as [__init__] leaves it when every key is given. *)
Definition sample_self (cm : option (GPRegression F)) (beta midpoint lengthscale : F)
  : AcquisitionEI_DFT F :=
  {| model := sample_primary; jitter := lit 0.01;
     data_fusion_target_variable := Some "dGmix (ev/f.u.)"%string;
     data_fusion_input_variables := Some ["CsPbI"; "MAPbI"]%string;
     constraint_model := cm; data_fusion_data := None;
     lengthscale := lengthscale; variance := lit 2;
     beta := beta; midpoint := Some midpoint |}.

(** A frame with two input columns and the target, two rows. *)
Definition sample_frame : DataFrame F :=
  mk_frame ["CsPbI"; "MAPbI"; "dGmix (ev/f.u.)"]%string 2
    (fun r c => if String.eqb c "dGmix (ev/f.u.)" then
                  (if r =? 0 then lit (-1) else lit 1)
                else if String.eqb c "CsPbI" then
                  (if r =? 0 then lit 0 else lit 1)
                else (if r =? 0 then lit 1 else lit 0)).


(** A frame with two rows and no column, as [pd.DataFrame(index=[0, 1])]. *)
Definition frame_without_columns : DataFrame F :=
  mk_frame [] 2 (fun _ _ => lit 0).

(** A dictionary without 'df_model' and without data. *)
Definition params_without_data : params F :=
  {| df_data := None;
     df_target_var := Some (Some "dGmix (ev/f.u.)"%string);
     df_input_var := Some (Some ["CsPbI"; "MAPbI"]%string);
     gp_lengthscale := None; gp_variance := None;
     p_beta := Some (lit 0.5); p_midpoint := Some (lit 0);
     df_model := None |}.

(** A dictionary with a fitted model and 'p_beta', without 'p_midpoint'. *)
Definition params_without_midpoint : params F :=
  {| df_data := None;
     df_target_var := Some (Some "dGmix (ev/f.u.)"%string);
     df_input_var := Some (Some ["CsPbI"; "MAPbI"]%string);
     gp_lengthscale := None; gp_variance := None;
     p_beta := Some (lit 0.5); p_midpoint := None;
     df_model := Some (Some (sample_surrogate 2)) |}.

End Samples.

(** The two prediction methods of the primary model agree on a batch. *)
Definition predictions_agree {F} (m : PrimaryModel F) (x : ndarray F) : Prop :=
  fst (fst (predict_withGradients m x)) = predict m x.

(** ** The earlier copy, [EI_DFT_safecopy20221117.py]

    It differs from [EI_DFT.py] in the constructor (keyword arguments, no
    read-back of the fitted hyperparameters), in [GP_model] (an RBF kernel
    with the given hyperparameters, one bound, a single optimizer run), in
    [calc_P] (a third component, the confidence interval) and in what it
    prints. *)

Module Safecopy.

Record RBF (F : Type) : Type := mk_RBF {
  rbf_input_dim : nat;
  rbf_lengthscale : F;
  rbf_variance : F;
  rbf_variance_bounds : option (F * F)
}.
Arguments mk_RBF {F}.
Arguments rbf_input_dim {F}.
Arguments rbf_lengthscale {F}.
Arguments rbf_variance {F}.
Arguments rbf_variance_bounds {F}.

Record GPRegressionRBF (F : Type) : Type := mk_GPRegressionRBF {
  m_X : ndarray F;
  m_Y : ndarray F;
  rbf : RBF F
}.
Arguments mk_GPRegressionRBF {F}.
Arguments m_X {F}.
Arguments m_Y {F}.
Arguments rbf {F}.

(** What the code does to the outside: calls into GPy, and lines printed. *)
Inductive event (F : Type) : Type :=
| GPy_kern_RBF (input_dim : nat) (lengthscale variance : F)
| GPy_models_GPRegression (X Y : ndarray F)
| rbf_variance_constrain_bounded (lower upper : F)
| optimize (max_f_eval : nat)
| print_nan (x : ndarray F)          (* print('x contains nan:\n ', x) *)
| print_cannot_plot.                 (* print('I do not know how to plot ...') *)
Arguments GPy_kern_RBF {F}.
Arguments GPy_models_GPRegression {F}.
Arguments rbf_variance_constrain_bounded {F}.
Arguments optimize {F}.
Arguments print_nan {F}.
Arguments print_cannot_plot {F}.

(** What the copy takes from outside, beside the [World] of the main file
    (uninitialized memory, [get_quantiles], the plotting grid). *)
Class GPyRBF (F : Type) : Type := {
  (* the (lengthscale, variance) [model.optimize] settles on *)
  rbf_optimum : GPRegressionRBF F -> nat -> F * F;
  (* [model.predict_noiseless(points)]: (mean, variance) *)
  rbf_predict_noiseless : GPRegressionRBF F -> ndarray F -> ndarray F * ndarray F;
  (* [model.predict_quantiles(points)]: [lower, upper] *)
  rbf_predict_quantiles : GPRegressionRBF F -> ndarray F -> ndarray F * ndarray F
}.

(** Exceptions and the log of events. *)
Definition E (F A : Type) : Type := list (event F) -> result A * list (event F).

Definition ret {F A} (a : A) : E F A := fun log => (Ok a, log).
Definition bind {F A B} (c : E F A) (k : A -> E F B) : E F B :=
  fun log => match c log with
             | (Ok a, log') => k a log'
             | (Raise e, log') => (Raise e, log')
             end.
Definition raise {F A} (e : exn) : E F A := fun log => (Raise e, log).
Definition lift {F A} (r : result A) : E F A := fun log => (r, log).
Definition emit {F} (c : event F) : E F unit := fun log => (Ok tt, log ++ [c]).

Declare Scope E_scope.
Delimit Scope E_scope with E.
Notation "x <- c ;; k" := (bind c (fun x => k))
  (at level 61, c at next level, right associativity) : E_scope.
Notation "' pat <- c ;; k" := (bind c (fun x => match x with pat => k end))
  (at level 61, pat pattern, c at next level, right associativity) : E_scope.
Notation "c ;;; k" := (bind c (fun _ => k))
  (at level 61, right associativity) : E_scope.

(** The instance after [__init__]: every attribute is assigned. *)
Record AcquisitionEI_DFT (F : Type) : Type := mk_AcquisitionEI_DFT {
  model : PrimaryModel F;
  data_fusion_target_variable : option string;
  data_fusion_data : option (DataFrame F);
  jitter : F;
  variance : F;
  lengthscale : F;
  beta : F;
  midpoint : F;
  data_fusion_input_variables : option (list string);
  constraint_model : option (GPRegressionRBF F)
}.
Arguments mk_AcquisitionEI_DFT {F}.
Arguments model {F}.
Arguments data_fusion_target_variable {F}.
Arguments data_fusion_data {F}.
Arguments jitter {F}.
Arguments variance {F}.
Arguments lengthscale {F}.
Arguments beta {F}.
Arguments midpoint {F}.
Arguments data_fusion_input_variables {F}.
Arguments constraint_model {F}.

Section Code.
Context {F : Type} `{Float64 F} `{World F} `{GPyRBF F}.

(** [GP_model] (defaults of the source: target 'dGmix (ev/f.u.)',
    lengthscale 0.03, variance 2, inputs CsPbI, MAPbI, FAPbI).  The
    hyperparameters are numbers: the copy has no case for [None]. *)
Definition GP_model (data_fusion_data : option (DataFrame F))
           (data_fusion_target_variable : option string)
           (lengthscale variance : F)
           (data_fusion_input_variables : option (list string))
  : E F (option (GPRegressionRBF F)) :=
  match data_fusion_data with
  | None => ret None
  | Some data =>
    if df_empty data then ret None
    else
      (X <- lift (match data_fusion_input_variables with
                  | Some vars => df_values data (map Some vars)
                  | None => Raise KeyError
                  end) ;;
       Y <- lift (df_values data [data_fusion_target_variable]) ;;
       emit (GPy_kern_RBF (ncols X) lengthscale variance) ;;;
       let kernel := mk_RBF (ncols X) lengthscale variance None in
       emit (GPy_models_GPRegression X Y) ;;;
       let model := mk_GPRegressionRBF X Y kernel in
       (* With small number of datapoints and no bounds on variance, the
          model sometimes converged into ridiculous variance values. *)
       (* paramz: Logistic(lower, upper) asserts lower < upper *)
       (if f_lt (variance * lit 1e-6)%fl (variance * lit 1e6)%fl
        then emit (rbf_variance_constrain_bounded (variance * lit 1e-6)%fl
                     (variance * lit 1e6)%fl)
        else raise AssertionError) ;;;
       let model :=
         mk_GPRegressionRBF (m_X model) (m_Y model)
           (mk_RBF (rbf_input_dim (rbf model)) (rbf_lengthscale (rbf model))
              (rbf_variance (rbf model))
              (Some ((variance * lit 1e-6)%fl, (variance * lit 1e6)%fl))) in
       (* optimize *)
       emit (optimize 500) ;;;
       let '(ls, var) := rbf_optimum model 500 in
       let model :=
         mk_GPRegressionRBF (m_X model) (m_Y model)
           (mk_RBF (rbf_input_dim (rbf model)) ls var
              (rbf_variance_bounds (rbf model))) in
       ret (Some model))%E
  end.

(** [calc_P] (defaults of the source: beta 0.025, midpoint 0): mean,
    probability and confidence interval. *)
Definition calc_P (points : ndarray F) (GP_model : option (GPRegressionRBF F))
           (beta midpoint : F)
  : ndarray F * ndarray F * (ndarray F * ndarray F) :=
  match GP_model with
  | Some GP_model =>
      let mean := rbf_predict_noiseless GP_model points in
      let mean := fst mean in
      (* 95% confidence interval by default. *)
      let conf_interval := rbf_predict_quantiles GP_model points in
      (* Inverted because the negative Gibbs energies are the ones that are
         stable. *)
      let propability :=
        arr_map (fun m => (lit 1 / (lit 1 + f_exp ((m - midpoint) / beta)))%fl)
                mean in
      (mean, propability, conf_interval)
  | None =>
      let mean := arr_map (fun z => (z + lit 0.5)%fl)
                          (np_zeros (nrows points, 1%nat)) in
      let conf_interval := (np_zeros (nrows points, 1%nat),
                            np_ones (nrows points, 1%nat)) in
      let propability := np_ones (nrows points, 1%nat) in
      (mean, propability, conf_interval)
  end.

(** [calc_gradient_of_P]: as in the main file, the [return g] stands inside
    the loop body. *)
Definition calc_gradient_of_P (x : ndarray F)
           (constraint_model : option (GPRegressionRBF F))
           (beta midpoint lengthscale : F) : result (option (ndarray F)) :=
  (* Step for numerical gradient. *)
  let delta_x := (lengthscale / lit 1000)%fl in
  let g := np_empty (shape x) in
  (r <- for_in (range (ncols x))
         (fun i g =>
            let x_l := copy x in
            let x_u := copy x in
            c_l <- get_col x_l i ;;
            x_l <- set_col x_l i (vec_map (fun v => (v - delta_x)%fl) c_l) ;;
            c_u <- get_col x_u i ;;
            x_u <- set_col x_u i (vec_map (fun v => (v + delta_x)%fl) c_u) ;;
            let '(_, p_l, _) := calc_P x_l constraint_model beta midpoint in
            let '(_, p_u, _) := calc_P x_u constraint_model beta midpoint in
            d <- p_u -! p_l ;;
            let q := arr_map (fun v => (v / (lit 2 * delta_x))%fl) d in
            g <- set_col g i (np_ravel q) ;;
            Ok (Return (Some g)))
         g ;;
   match r with
   | Return v => Ok v
   | Next _ => Ok None
   end)%py.

(** [plot_P]: the plotting call is commented out; what remains computes the
    extreme probabilities over the grid. *)
Definition plot_P (GP_model : option (GPRegressionRBF F)) (beta : F)
           (data_type : string) (midpoint : F) : result (F * F) :=
  let points := create_ternary_grid in
  let '(mean, propability, conf_interval) :=
    calc_P points GP_model beta midpoint in
  (minP <- arr_min propability ;;
   maxP <- arr_max propability ;;
   Ok (minP, maxP))%py.

(** [AcquisitionEI_DFT.__init__(model, space, data_fusion_data, optimizer,
    cost_withGradients, data_fusion_target_variable, jitter, lengthscale,
    variance, beta, midpoint, data_fusion_input_variables)] *)
Definition __init__ (model : PrimaryModel F)
           (data_fusion_data : option (DataFrame F))
           (data_fusion_target_variable : option string)
           (jitter lengthscale variance beta midpoint : F)
           (data_fusion_input_variables : option (list string))
  : E F (AcquisitionEI_DFT F) :=
  (constraint_model <- GP_model data_fusion_data data_fusion_target_variable
                         lengthscale variance data_fusion_input_variables ;;
   n <- lift (match data_fusion_input_variables with
              | Some vars => Ok (List.length vars)
              | None => Raise TypeError
              end) ;;
   (if n =? 3 then
      (if str_is data_fusion_target_variable "dGmix (ev/f.u.)" then
         lift (plot_P constraint_model beta "dft" midpoint) ;;; ret tt
       else ret tt) ;;;
      (if str_is data_fusion_target_variable "Yellowness" then
         lift (plot_P constraint_model beta "yellowness" midpoint) ;;; ret tt
       else ret tt)
    else emit print_cannot_plot) ;;;
   ret {| model := model;
          data_fusion_target_variable := data_fusion_target_variable;
          data_fusion_data := data_fusion_data;
          jitter := jitter; variance := variance; lengthscale := lengthscale;
          beta := beta; midpoint := midpoint;
          data_fusion_input_variables := data_fusion_input_variables;
          constraint_model := constraint_model |})%E.

(** [_compute_acq] *)
Definition _compute_acq (self : AcquisitionEI_DFT F) (x : ndarray F)
  : result (ndarray F) :=
  let '(m, s) := predict (model self) x in
  let fmin := get_fmin (model self) in
  let '(phi, Phi, u) := get_quantiles (jitter self) fmin m s in
  (t <- u *! Phi ;;
   t <- t +! phi ;;
   f_acqu <- s *! t ;;
   let '(_, prob, _) :=
     calc_P x (constraint_model self) (beta self) (midpoint self) in
   f_acqu <- f_acqu *! prob ;;
   Ok f_acqu)%py.

(** [_compute_acq_withGradients]; a batch that contains a NaN is printed,
    and the computation goes on. *)
Definition _compute_acq_withGradients (self : AcquisitionEI_DFT F)
           (x : ndarray F) : E F (ndarray F * ndarray F) :=
  let fmin := get_fmin (model self) in
  let '(m, s, dmdx, dsdx) := predict_withGradients (model self) x in
  let '(phi, Phi, u) := get_quantiles (jitter self) fmin m s in
  ('(f_acqu, df_acqu) <- lift (t <- u *! Phi ;;
                               t <- t +! phi ;;
                               f_acqu <- s *! t ;;
                               a <- dsdx *! phi ;;
                               b <- Phi *! dmdx ;;
                               df_acqu <- a -! b ;;
                               Ok (f_acqu, df_acqu))%py ;;
   (if any_isnan x then emit (print_nan x) else ret tt) ;;;
   lift (let '(_, prob, _) :=
           calc_P x (constraint_model self) (beta self) (midpoint self) in
         f_acqu <- f_acqu *! prob ;;
         d_prob <- calc_gradient_of_P x (constraint_model self) (beta self)
                     (midpoint self) (lengthscale self) ;;
         a <- df_acqu *! prob ;;
         (* an array times None is a TypeError *)
         d_prob <- match d_prob with
                   | Some g => Ok g
                   | None => Raise TypeError
                   end ;;
         b <- f_acqu *! d_prob ;;
         df_acqu <- a +! b ;;
         Ok (f_acqu, df_acqu))%py)%E.

(** The probability [calc_P] gives to row [r] of a batch. *)
Definition probability (points : ndarray F) (cm : option (GPRegressionRBF F))
           (beta midpoint : F) (r : nat) : F :=
  get (snd (fst (calc_P points cm beta midpoint))) r 0.

(** The symmetric central difference of that probability along dimension
    [i], with delta = lengthscale/1000. *)
Definition central_difference (x : ndarray F) (cm : option (GPRegressionRBF F))
           (beta midpoint lengthscale : F) (r i : nat) : F :=
  let delta := (lengthscale / lit 1000)%fl in
  let p_lower :=
    probability (shifted x i (fun v => (v - delta)%fl)) cm beta midpoint r in
  let p_upper :=
    probability (shifted x i (fun v => (v + delta)%fl)) cm beta midpoint r in
  ((p_upper - p_lower) / (lit 2 * delta))%fl.

(** The surrogate answers a batch of n points with n means. *)
Definition surrogate_shaped (cm : option (GPRegressionRBF F)) : Prop :=
  forall m points, cm = Some m ->
    shape (fst (rbf_predict_noiseless m points)) = (nrows points, 1%nat).

End Code.

(** A model world for the copy: the optimizer keeps the hyperparameters, the
    posterior mean at a point is the sum of its coordinates, the confidence
    interval is [0, 1]. *)
Definition sample_gpy {F : Type} `{Float64 F} : GPyRBF F :=
  {| rbf_optimum := fun m _ => (rbf_lengthscale (rbf m), rbf_variance (rbf m));
     rbf_predict_noiseless := fun _ points =>
       (mk_array (nrows points) 1
          (fun r _ => f_sum (map (get points r) (seq 0 (ncols points)))),
        np_zeros (nrows points, 1%nat));
     rbf_predict_quantiles := fun _ points =>
       (np_zeros (nrows points, 1%nat), np_ones (nrows points, 1%nat)) |}.

End Safecopy.

(** ** The same lines in IEEE 754 binary64

    Rocq's primitive floats are the binary64 numbers with the operations of
    IEEE 754 rounded to nearest even, which is numpy's float64.  The lines
    of the source whose properties depend on rounding are written here once
    more over them, so that they can be evaluated. *)

Module Binary64.
Import PrimFloat.
Local Open Scope float_scope.

(** A stand-in for [np.exp], which is the platform's: exp(x) is
    exp(x/1024) raised to the power 1024 by ten squarings, and the inner
    exponential is its Taylor polynomial of degree 12.  It is accurate to
    about twelve significant digits; exp(0) = 1, exp(-inf) = 0 and
    exp(+inf) = +inf are exact, as the C standard asks. *)
Definition exp_taylor (r : float) : float :=
  List.fold_right (fun c acc => c + r * acc) 0
    [0x1p+0; 0x1p+0; 0x1p-1; 0x1.5555555555555p-3; 0x1.5555555555555p-5;
     0x1.1111111111111p-7; 0x1.6c16c16c16c17p-10; 0x1.a01a01a01a01ap-13;
     0x1.a01a01a01a01ap-16; 0x1.71de3a556c734p-19; 0x1.27e4fb7789f5cp-22;
     0x1.ae64567f544e4p-26; 0x1.1eed8eff8d898p-29].

Definition exp (x : float) : float :=
  if is_nan x then x
  else if x =? neg_infinity then 0
  else if x =? infinity then infinity
  else Nat.iter 10 (fun y => y * y) (exp_taylor (x / 1024)).

(** [inv_sigmoid] *)
Definition inv_sigmoid (mean midpoint beta : float) : float :=
  1 / (1 + exp ((mean - midpoint) / beta)).

(** [a.sum()] of an array of fewer than eight entries: numpy adds them in
    order, starting from 0. *)
Definition f_sum (l : list float) : float := List.fold_left add l 0.

(** [a.var()] *)
Definition arr_var (l : list float) : float :=
  let n := of_uint63 (Uint63.of_Z (Z.of_nat (List.length l))) in
  let arrmean := f_sum l / n in
  let x := List.map (fun y => y - arrmean) l in
  f_sum (List.map (fun d => d * d) x) / n.

(** The initial kernel variance of [GP_model], from [variance] and the
    entries of Y. *)
Definition kernel_var (variance : option float) (Y : list float) : float :=
  let auto_kernel_var :=
    let kernel_var := arr_var Y in
    (* Only constant value(s) *)
    if kernel_var =? 0 then 1 else kernel_var in
  match variance with
  | None => auto_kernel_var
  | Some kernel_var =>
      if kernel_var <=? 0 then auto_kernel_var else kernel_var
  end.

End Binary64.

(** An instance of the copy seen as one of the main file without a
    surrogate: the same primary model, jitter and attributes.  [EI], [EI_wg]
    and [d_EI] read only the primary model and the jitter. *)
Definition without_surrogate {F} (self : Safecopy.AcquisitionEI_DFT F)
  : AcquisitionEI_DFT F :=
  {| model := Safecopy.model self; jitter := Safecopy.jitter self;
     data_fusion_target_variable := Safecopy.data_fusion_target_variable self;
     data_fusion_input_variables := Safecopy.data_fusion_input_variables self;
     constraint_model := None;
     data_fusion_data := Safecopy.data_fusion_data self;
     lengthscale := Safecopy.lengthscale self;
     variance := Safecopy.variance self;
     beta := Safecopy.beta self;
     midpoint := Some (Safecopy.midpoint self) |}.

(** ** Arrays: shapes and entries *)

Section ArrayFacts.
Context {F : Type} `{Float64 F}.

Lemma bidx_lt (n i : nat) : i < n -> bidx n i = i.
Proof.
  intros Hi. unfold bidx.
  destruct (n =? 1) eqn:E; [apply Nat.eqb_eq in E; lia | reflexivity].
Qed.

Lemma bidx_one (i : nat) : bidx 1 i = 0%nat.
Proof. reflexivity. Qed.

Lemma bdim_same (n : nat) : bdim n n = Some n.
Proof. unfold bdim. now rewrite Nat.eqb_refl. Qed.

Lemma bdim_one_r (d : nat) : bdim d 1 = Some d.
Proof.
  unfold bdim. destruct (d =? 1) eqn:E; [reflexivity | now cbn].
Qed.

Lemma bdim_one_l (d : nat) : bdim 1 d = Some d.
Proof.
  unfold bdim. destruct (1 =? d) eqn:E.
  - apply Nat.eqb_eq in E. now subst.
  - now cbn.
Qed.

Lemma shape_inv (a : ndarray F) (n d : nat) :
  shape a = (n, d) -> nrows a = n /\ ncols a = d.
Proof. unfold shape. intros E. now inversion E. Qed.

(** Broadcasting along the columns, with equal numbers of rows. *)
Lemma broadcast2_ok (f : F -> F -> F) (a b : ndarray F) (n d : nat) :
  nrows a = n -> nrows b = n -> bdim (ncols a) (ncols b) = Some d ->
  exists c, broadcast2 f a b = Ok c /\ nrows c = n /\ ncols c = d /\
            forall i j, i < n ->
              get c i j = f (get a i (bidx (ncols a) j)) (get b i (bidx (ncols b) j)).
Proof.
  intros Ha Hb Hd. unfold broadcast2.
  rewrite Ha, Hb, bdim_same, Hd.
  eexists. split; [reflexivity |]. cbn. repeat split.
  intros i j Hi. now rewrite bidx_lt.
Qed.

(** Two columns. *)
Lemma broadcast2_cols (f : F -> F -> F) (a b : ndarray F) (n : nat) :
  shape a = (n, 1%nat) -> shape b = (n, 1%nat) ->
  exists c, broadcast2 f a b = Ok c /\ shape c = (n, 1%nat) /\
            forall i, i < n -> get c i 0 = f (get a i 0) (get b i 0).
Proof.
  intros [Ha Ha']%shape_inv [Hb Hb']%shape_inv.
  destruct (broadcast2_ok f a b n 1) as (c & E & Hn & Hd & Hg); auto.
  { rewrite Ha', Hb'. reflexivity. }
  exists c. unfold shape. rewrite Hn, Hd. repeat split; auto.
  intros i Hi. rewrite Hg, Ha', Hb' by assumption. reflexivity.
Qed.

(** A matrix and a column. *)
Lemma broadcast2_mat_col (f : F -> F -> F) (a b : ndarray F) (n d : nat) :
  shape a = (n, d) -> shape b = (n, 1%nat) ->
  exists c, broadcast2 f a b = Ok c /\ shape c = (n, d) /\
            forall i j, i < n -> j < d -> get c i j = f (get a i j) (get b i 0).
Proof.
  intros [Ha Ha']%shape_inv [Hb Hb']%shape_inv.
  destruct (broadcast2_ok f a b n d) as (c & E & Hn & Hd & Hg); auto.
  { rewrite Ha', Hb'. apply bdim_one_r. }
  exists c. unfold shape. rewrite Hn, Hd. repeat split; auto.
  intros i j Hi Hj. rewrite Hg, Ha', Hb' by assumption.
  now rewrite bidx_lt.
Qed.

(** A column and a matrix. *)
Lemma broadcast2_col_mat (f : F -> F -> F) (a b : ndarray F) (n d : nat) :
  shape a = (n, 1%nat) -> shape b = (n, d) ->
  exists c, broadcast2 f a b = Ok c /\ shape c = (n, d) /\
            forall i j, i < n -> j < d -> get c i j = f (get a i 0) (get b i j).
Proof.
  intros [Ha Ha']%shape_inv [Hb Hb']%shape_inv.
  destruct (broadcast2_ok f a b n d) as (c & E & Hn & Hd & Hg); auto.
  { rewrite Ha', Hb'. apply bdim_one_l. }
  exists c. unfold shape. rewrite Hn, Hd. repeat split; auto.
  intros i j Hi Hj. rewrite Hg, Ha', Hb' by assumption.
  now rewrite (bidx_lt d j).
Qed.

(** Two matrices of one shape. *)
Lemma broadcast2_same (f : F -> F -> F) (a b : ndarray F) (n d : nat) :
  shape a = (n, d) -> shape b = (n, d) ->
  exists c, broadcast2 f a b = Ok c /\ shape c = (n, d) /\
            forall i j, i < n -> j < d -> get c i j = f (get a i j) (get b i j).
Proof.
  intros [Ha Ha']%shape_inv [Hb Hb']%shape_inv.
  destruct (broadcast2_ok f a b n d) as (c & E & Hn & Hd & Hg); auto.
  { rewrite Ha', Hb'. apply bdim_same. }
  exists c. unfold shape. rewrite Hn, Hd. repeat split; auto.
  intros i j Hi Hj. rewrite Hg, Ha', Hb' by assumption.
  now rewrite (bidx_lt d j).
Qed.

End ArrayFacts.

(** Runs the next array operation of the goal, two columns of [n] rows. *)
Ltac run_cols n :=
  match goal with
  | |- context [rbind (broadcast2 ?f ?a ?b) _] =>
      let c := fresh "c" in let E := fresh "E" in
      let Hs := fresh "Hs" in let Hg := fresh "Hg" in
      destruct (broadcast2_cols f a b n) as (c & E & Hs & Hg);
      [ assumption | assumption | rewrite E; cbn [rbind] ]
  end.

(** ** The probability transform *)

Open Scope R_scope.

Lemma inv_sigmoid_unfold (m midpoint beta : R) :
  inv_sigmoid m midpoint beta = 1 / (1 + exp ((m - midpoint) / beta)).
Proof. reflexivity. Qed.

Lemma inv_one_plus_decreasing (a b : R) :
  0 < a -> a < b -> 1 / (1 + b) < 1 / (1 + a).
Proof.
  intros Ha Hab. unfold Rdiv. rewrite !Rmult_1_l.
  apply Rinv_lt_contravar; [ | lra].
  apply Rmult_lt_0_compat; lra.
Qed.

Lemma f_lt_true (a b : R) : a < b -> f_lt a b = true.
Proof.
  intros Hab. unfold f_lt. cbn [f_le f_eq R_Float64]. unfold Rleb, Reqb.
  destruct (Rle_dec a b); [| lra]. destruct (Req_dec_T a b); [lra | reflexivity].
Qed.


(** Exact arithmetic is the rounded arithmetic that rounds nothing. *)
Lemma rounding_id : rounding (fun x => x).
Proof. constructor; intros; lra. Qed.

Lemma exponential_exp : exponential exp.
Proof.
  constructor.
  - intros x y [Hlt | ->]; [left; now apply exp_increasing | right; reflexivity].
  - intros x. left. apply exp_pos.
  - apply exp_0.
Qed.

Section RoundedTransform.
Variables rnd fexp : R -> R.
Hypothesis Hrnd : rounding rnd.
Hypothesis Hexp : exponential fexp.

(** The transform of an exponent z, as the code rounds it. *)
Lemma rounded_inv_sigmoid_unfold (m midpoint beta : R) :
  inv_sigmoid (H := rounded_Float64 rnd fexp) m midpoint beta
  = rnd (1 / rnd (1 + fexp (rnd (rnd (m - midpoint) / beta)))).
Proof.
  unfold inv_sigmoid. cbn [f_add f_sub f_div f_exp lit rounded_Float64].
  now rewrite (rnd_1 rnd Hrnd).
Qed.

Lemma rounded_denominator (z : R) : 1 <= rnd (1 + fexp z).
Proof.
  rewrite <- (rnd_1 rnd Hrnd) at 1. apply rnd_monotone; [exact Hrnd |].
  pose proof (fexp_nonneg fexp Hexp z). lra.
Qed.

Lemma rounded_quotient_range (z : R) : 0 <= rnd (1 / rnd (1 + fexp z)) <= 1.
Proof.
  pose proof (rounded_denominator z) as Hd.
  assert (Hq : 0 < 1 / rnd (1 + fexp z) <= 1).
  { split.
    - apply Rdiv_lt_0_compat; lra.
    - apply Rmult_le_reg_r with (rnd (1 + fexp z)); [lra |].
      unfold Rdiv. rewrite Rmult_assoc, Rinv_l by lra. lra. }
  pose proof (rnd_monotone rnd Hrnd 0 _ (Rlt_le _ _ (proj1 Hq))) as H0.
  pose proof (rnd_monotone rnd Hrnd _ 1 (proj2 Hq)) as H1.
  rewrite (rnd_0 rnd Hrnd) in H0. rewrite (rnd_1 rnd Hrnd) in H1.
  split; assumption.
Qed.

(** A larger exponent never gives a larger quotient. *)
Lemma rounded_quotient_antitone (z1 z2 : R) :
  z1 <= z2 ->
  rnd (1 / rnd (1 + fexp z2)) <= rnd (1 / rnd (1 + fexp z1)).
Proof.
  intros Hz. apply rnd_monotone; [exact Hrnd |].
  pose proof (rounded_denominator z1) as H1.
  assert (Hd : rnd (1 + fexp z1) <= rnd (1 + fexp z2)).
  { apply rnd_monotone; [exact Hrnd |].
    pose proof (fexp_monotone fexp Hexp z1 z2 Hz). lra. }
  unfold Rdiv. rewrite !Rmult_1_l. apply Rinv_le_contravar; lra.
Qed.

Lemma rounded_quotient_at_0 : rnd (1 / rnd (1 + fexp 0)) = 1 / 2.
Proof.
  rewrite (fexp_0 fexp Hexp).
  replace (1 + 1) with 2 by lra.
  rewrite (rnd_2 rnd Hrnd). apply (rnd_half rnd Hrnd).
Qed.

(** The exponent is monotone in the mean. *)
Lemma rounded_exponent_monotone (m1 m2 midpoint beta : R) :
  0 < beta -> m1 <= m2 ->
  rnd (rnd (m1 - midpoint) / beta) <= rnd (rnd (m2 - midpoint) / beta).
Proof.
  intros Hb Hm. apply rnd_monotone; [exact Hrnd |].
  assert (Hd : rnd (m1 - midpoint) <= rnd (m2 - midpoint))
    by (apply rnd_monotone; [exact Hrnd | lra]).
  pose proof (Rinv_0_lt_compat beta Hb). unfold Rdiv. nra.
Qed.

Lemma rounded_exponent_at_midpoint (midpoint beta : R) :
  rnd (rnd (midpoint - midpoint) / beta) = 0.
Proof.
  replace (midpoint - midpoint) with 0 by lra.
  rewrite (rnd_0 rnd Hrnd).
  replace (0 / beta) with 0 by (unfold Rdiv; ring).
  apply (rnd_0 rnd Hrnd).
Qed.

Lemma rounded_inv_sigmoid_range (m midpoint beta : R) :
  0 <= inv_sigmoid (H := rounded_Float64 rnd fexp) m midpoint beta <= 1.
Proof. rewrite rounded_inv_sigmoid_unfold. apply rounded_quotient_range. Qed.

Lemma rounded_inv_sigmoid_antitone (m1 m2 midpoint beta : R) :
  0 < beta -> m1 <= m2 ->
  inv_sigmoid (H := rounded_Float64 rnd fexp) m2 midpoint beta
  <= inv_sigmoid (H := rounded_Float64 rnd fexp) m1 midpoint beta.
Proof.
  intros Hb Hm. rewrite !rounded_inv_sigmoid_unfold.
  apply rounded_quotient_antitone. now apply rounded_exponent_monotone.
Qed.

Lemma rounded_inv_sigmoid_midpoint (midpoint beta : R) :
  inv_sigmoid (H := rounded_Float64 rnd fexp) midpoint midpoint beta = 1 / 2.
Proof.
  rewrite rounded_inv_sigmoid_unfold, rounded_exponent_at_midpoint.
  apply rounded_quotient_at_0.
Qed.

End RoundedTransform.

(** C5.  In rounded arithmetic, for beta > 0, the transform is the rounded
    1/(1 + exp((m - midpoint)/beta)); it lies in the closed interval
    [0, 1], never increases with the mean, and equals 0.5 at the
    midpoint. *)
Theorem inv_sigmoid_closed_interval_nonincreasing_half
        (rnd fexp : R -> R) (midpoint beta : R) :
  rounding rnd -> exponential fexp -> 0 < beta ->
  let p := fun m =>
    inv_sigmoid (H := rounded_Float64 rnd fexp) m midpoint beta in
  (forall m,
     p m = rnd (1 / rnd (1 + fexp (rnd (rnd (m - midpoint) / beta))))) /\
  (forall m, 0 <= p m <= 1) /\
  (forall m1 m2, m1 <= m2 -> p m2 <= p m1) /\
  p midpoint = 0.5.
Proof.
  intros Hrnd Hexp Hb p. unfold p. split; [| split; [| split]].
  - intros m. now apply rounded_inv_sigmoid_unfold.
  - intros m. now apply rounded_inv_sigmoid_range.
  - intros m1 m2 Hm. now apply rounded_inv_sigmoid_antitone.
  - rewrite (rounded_inv_sigmoid_midpoint rnd fexp Hrnd Hexp). lra.
Qed.

Lemma inv_sigmoid_closed_interval_nonincreasing_half_witness :
  0 <= inv_sigmoid (-1) 0 0.025 <= 1 /\
  inv_sigmoid 1 0 0.025 <= inv_sigmoid (-1) 0 0.025 /\
  inv_sigmoid 0 0 0.025 = 0.5.
Proof.
  assert (Hb : 0 < 0.025) by lra.
  destruct (inv_sigmoid_closed_interval_nonincreasing_half
              (fun x => x) exp 0 0.025 rounding_id exponential_exp Hb)
    as (_ & Hrange & Hmono & Hmid).
  split; [exact (Hrange (-1)) |].
  split; [apply Hmono; lra | exact Hmid].
Defined.

Section Binary64Transform.
Import PrimFloat.
Local Open Scope float_scope.

(** The margin: the exponent for the mean -1 is -40, the stand-in puts
    exp(-40) below 2^-57, and adding as much as 2^-54 to 1 gives 1. *)
Lemma one_plus_exp_is_one_in_binary64 :
  (-1 - 0) / 0x1.999999999999ap-6 = -40 /\
  (Binary64.exp (-40) <? 0x1p-57) = true /\
  1 + 0x1p-54 = 1.
Proof. vm_compute. repeat split. Qed.

(** C5, the claim as it stands: in binary64, with the default beta 0.025
    and midpoint 0, the transform of the mean -1 is exactly 1 and that of
    the mean 20 is exactly 0, so the value is not inside the open interval;
    and the means -2 and -1 have the same transform, so it is not strictly
    decreasing.  (exp(-40) is below half the distance from 1 to the next
    binary64 number, and exp(800) overflows.) *)
Lemma inv_sigmoid_saturates_in_binary64 :
  Binary64.inv_sigmoid (-1) 0 0x1.999999999999ap-6 = 1 /\
  Binary64.inv_sigmoid 20 0 0x1.999999999999ap-6 = 0 /\
  Binary64.inv_sigmoid (-2) 0 0x1.999999999999ap-6
  = Binary64.inv_sigmoid (-1) 0 0x1.999999999999ap-6.
Proof. vm_compute. repeat split. Qed.

End Binary64Transform.

(** ** The fallback without a surrogate *)

Section Fallback.
Context `{World R}.

Lemma calc_P_None (points : ndarray R) (beta midpoint : R) :
  calc_P points None beta midpoint =
  (arr_map (fun z => z + 0.5) (np_zeros (nrows points, 1%nat)),
   np_ones (nrows points, 1%nat)).
Proof. reflexivity. Qed.

(** C3.  Without a surrogate [calc_P] returns n means equal to 0.5 and n
    probabilities equal to 1, whatever the number of columns of the batch,
    and [_compute_acq] returns the Expected Improvement s*(u*Phi + phi). *)
Theorem no_surrogate_is_plain_EI :
  (forall points beta midpoint,
     let '(mean, prob) := calc_P points None beta midpoint in
     shape mean = (nrows points, 1%nat) /\
     shape prob = (nrows points, 1%nat) /\
     forall r, (r < nrows points)%nat ->
       get mean r 0 = 0.5 /\ get prob r 0 = 1) /\
  (forall self x mp,
     constraint_model self = None ->
     midpoint self = Some mp ->
     primary_shaped self x ->
     exists acq, _compute_acq self x = Ok acq /\
                 shape acq = (nrows x, 1%nat) /\
                 forall r, (r < nrows x)%nat -> get acq r 0 = EI self x r).
Proof.
  split.
  - intros points beta midpoint. rewrite calc_P_None. cbn.
    repeat split; lra.
  - intros self x mp Hcm Hmp Hshape.
    unfold _compute_acq, EI, primary_shaped in *.
    destruct (predict (model self) x) as [m s].
    destruct (get_quantiles (jitter self) (get_fmin (model self)) m s)
      as [[phi Phi] u].
    destruct Hshape as (Hs & Hphi & HPhi & Hu).
    assert (Hone : shape (np_ones (F:=R) (nrows x, 1%nat)) = (nrows x, 1%nat))
      by reflexivity.
    unfold arr_add, arr_mul.
    do 3 run_cols (nrows x).
    rewrite Hmp, Hcm. cbn [getattr rbind]. rewrite calc_P_None.
    do 6 run_cols (nrows x).
    exists c2. repeat split; [assumption |].
    intros r Hr. rewrite Hg2, Hg1, Hg0, Hg by assumption. cbn. ring.
Qed.

End Fallback.

Lemma no_surrogate_is_plain_EI_witness :
  exists acq,
    _compute_acq (H0 := sample_world) (sample_self None 0.025 0 0.03)
                 (row [0; 0]) = Ok acq /\
    shape acq = (1%nat, 1%nat).
Proof.
  destruct (proj2 (@no_surrogate_is_plain_EI sample_world)
              (sample_self None 0.025 0 0.03) (row [0; 0]) 0
              eq_refl eq_refl)
    as (acq & E & Hs & _).
  - cbn. repeat split.
  - exists acq. split; [exact E | exact Hs].
Defined.

(** ** The finite-difference gradient *)

Section Gradient.
Context {F : Type} `{Float64 F} `{World F}.

Lemma calc_P_shape (points : ndarray F) (cm : option (GPRegression F))
      (beta midpoint : F) :
  surrogate_shaped cm ->
  shape (snd (calc_P points cm beta midpoint)) = (nrows points, 1%nat).
Proof.
  intros Hcm. destruct cm as [m |]; cbn; [| reflexivity].
  specialize (Hcm m points eq_refl).
  apply shape_inv in Hcm as [Hn Hd]. unfold shape. cbn. now rewrite Hn, Hd.
Qed.

Lemma range_pos (n : nat) : (0 < n)%nat -> range n = 0%nat :: seq 1 (n - 1).
Proof. intros Hn. unfold range. destruct n; [lia |]. cbn. now rewrite Nat.sub_0_r. Qed.

Lemma get_col_ok (a : ndarray F) (i : nat) :
  (i < ncols a)%nat ->
  get_col a i = Ok (mk_vec (nrows a) (fun r => get a r i)).
Proof. intros Hi. unfold get_col. apply Nat.ltb_lt in Hi. now rewrite Hi. Qed.

Lemma set_col_ok (a : ndarray F) (i : nat) (v : vec F) :
  (i < ncols a)%nat -> vlen v = nrows a ->
  set_col a i v = Ok (mk_array (nrows a) (ncols a)
                        (fun r c => if c =? i then vget v r else get a r c)).
Proof.
  intros Hi Hv. unfold set_col. apply Nat.ltb_lt in Hi.
  now rewrite Hi, Hv, Nat.eqb_refl.
Qed.

(** The column written by the loop body holds the batch shifted along
    dimension [i] only. *)
Lemma set_col_shifted (x : ndarray F) (i : nat) (f : F -> F) :
  (i < ncols x)%nat ->
  set_col (copy x) i
    (vec_map f (mk_vec (nrows (copy x)) (fun r => get (copy x) r i)))
  = Ok (shifted x i f).
Proof. intros Hi. rewrite set_col_ok; [reflexivity | exact Hi | reflexivity]. Qed.

(** What the loop computes: its body runs for the first dimension and
    returns; the other columns of the result still hold what [np.empty]
    handed out. *)
Lemma calc_gradient_of_P_first_dimension_only
      (x : ndarray F) (cm : option (GPRegression F))
      (beta midpoint lengthscale : F) :
  (0 < ncols x)%nat ->
  surrogate_shaped cm ->
  exists g,
    calc_gradient_of_P x cm beta midpoint lengthscale = Ok (Some g) /\
    shape g = shape x /\
    (forall r, (r < nrows x)%nat ->
       get g r 0 = central_difference x cm beta midpoint lengthscale r 0) /\
    (forall r j, j <> 0%nat -> get g r j = uninitialized r j).
Proof.
  intros Hd Hcm. unfold calc_gradient_of_P.
  rewrite (range_pos _ Hd). cbn [for_in].
  rewrite (get_col_ok (copy x) 0 Hd). cbn [rbind].
  rewrite (set_col_shifted x 0 _ Hd). cbn [rbind].
  rewrite (set_col_shifted x 0 _ Hd). cbn [rbind].
  set (x_l := shifted x 0 (fun v => (v - lengthscale / lit 1000)%fl)).
  set (x_u := shifted x 0 (fun v => (v + lengthscale / lit 1000)%fl)).
  pose proof (calc_P_shape x_l cm beta midpoint Hcm) as Sl.
  pose proof (calc_P_shape x_u cm beta midpoint Hcm) as Su.
  assert (Epl : forall r, get (snd (calc_P x_l cm beta midpoint)) r 0
                          = probability x_l cm beta midpoint r) by reflexivity.
  assert (Epu : forall r, get (snd (calc_P x_u cm beta midpoint)) r 0
                          = probability x_u cm beta midpoint r) by reflexivity.
  destruct (calc_P x_l cm beta midpoint) as [ml p_l].
  destruct (calc_P x_u cm beta midpoint) as [mu p_u].
  cbn [snd] in Sl, Su, Epl, Epu.
  unfold arr_sub.
  destruct (broadcast2_cols f_sub p_u p_l (nrows x) Su Sl) as (dd & E & Hs & Hg).
  rewrite E. cbn [rbind].
  apply shape_inv in Hs as [Hn Hc].
  rewrite set_col_ok;
    [| exact Hd | cbn; rewrite Hn, Hc; apply Nat.mul_1_r].
  cbn [rbind]. eexists. split; [reflexivity |].
  split; [reflexivity |]. split.
  - intros r Hr. cbn. rewrite Hc, Nat.div_1_r.
    replace (r mod 1)%nat with 0%nat by (symmetry; apply Nat.mod_1_r).
    rewrite Hg, Epl, Epu by assumption. reflexivity.
  - intros r j Hj. destruct j as [| j]; [congruence | reflexivity].
Qed.

End Gradient.

Lemma inv_sigmoid_decreasing (midpoint beta m1 m2 : R) :
  0 < beta -> m1 < m2 ->
  inv_sigmoid m2 midpoint beta < inv_sigmoid m1 midpoint beta.
Proof.
  intros Hb Hm. rewrite !inv_sigmoid_unfold.
  apply inv_one_plus_decreasing; [apply exp_pos |].
  apply exp_increasing. unfold Rdiv.
  apply Rmult_lt_compat_r; [now apply Rinv_0_lt_compat | lra].
Qed.

Lemma sample_surrogate_shaped (d : nat) :
  surrogate_shaped (H0 := sample_world) (Some (sample_surrogate (F := R) d)).
Proof. intros m points _. reflexivity. Qed.

(** C1.  On the one-row batch (0, 0) with a surrogate whose mean is the sum
    of the coordinates, beta = 1, midpoint = 0 and lengthscale = 1000, the
    second column of the returned gradient is the uninitialized entry
    (here 0), while the central difference along the second dimension is
    negative. *)
Theorem calc_gradient_of_P_leaves_second_dimension :
  exists g,
    calc_gradient_of_P (H0 := sample_world) (row [0; 0])
      (Some (sample_surrogate 2)) 1 0 1000 = Ok (Some g) /\
    get g 0 1 = 0 /\
    central_difference (H0 := sample_world) (row [0; 0])
      (Some (sample_surrogate 2)) 1 0 1000 0 1 < 0.
Proof.
  destruct (calc_gradient_of_P_first_dimension_only (H0 := sample_world)
              (row [0; 0]) (Some (sample_surrogate 2)) 1 0 1000)
    as (g & E & _ & _ & Hrest).
  - cbn. lia.
  - apply sample_surrogate_shaped.
  - exists g. split; [exact E |]. split.
    + rewrite Hrest by discriminate. reflexivity.
    + unfold central_difference, probability, calc_P, shifted, row.
      cbn.
      replace ((0 + 0 + (0 + 1000 / 1000) - 0) / 1) with 1 by lra.
      replace ((0 + 0 + (0 - 1000 / 1000) - 0) / 1) with (-1) by lra.
      replace (2 * (1000 / 1000)) with 2 by lra.
      assert (Hlt : 1 / (1 + exp 1) < 1 / (1 + exp (-1))).
      { apply inv_one_plus_decreasing; [apply exp_pos |].
        apply exp_increasing. lra. }
      lra.
Qed.

(** ** The acquisition with gradients *)

Ltac run_mat_col n d :=
  match goal with
  | |- context [rbind (broadcast2 ?f ?a ?b) _] =>
      let c := fresh "c" in let E := fresh "E" in
      let Hs := fresh "Hs" in let Hg := fresh "Hg" in
      destruct (broadcast2_mat_col f a b n d) as (c & E & Hs & Hg);
      [ assumption | assumption | rewrite E; cbn [rbind] ]
  end.

Ltac run_col_mat n d :=
  match goal with
  | |- context [rbind (broadcast2 ?f ?a ?b) _] =>
      let c := fresh "c" in let E := fresh "E" in
      let Hs := fresh "Hs" in let Hg := fresh "Hg" in
      destruct (broadcast2_col_mat f a b n d) as (c & E & Hs & Hg);
      [ assumption | assumption | rewrite E; cbn [rbind] ]
  end.

Ltac run_same n d :=
  match goal with
  | |- context [rbind (broadcast2 ?f ?a ?b) _] =>
      let c := fresh "c" in let E := fresh "E" in
      let Hs := fresh "Hs" in let Hg := fresh "Hg" in
      destruct (broadcast2_same f a b n d) as (c & E & Hs & Hg);
      [ assumption | assumption | rewrite E; cbn [rbind] ]
  end.

Section WithGradients.
Context {F : Type} `{Float64 F} `{World F}.

(** What [_compute_acq_withGradients] returns on a batch with at least one
    column: the value EI*prob, and the gradient
    d_EI*prob + (EI*prob)*d_prob, the second summand built from the value
    that was already multiplied by prob. *)
Lemma _compute_acq_withGradients_returns
      (self : AcquisitionEI_DFT F) (x : ndarray F) (mp : F) :
  midpoint self = Some mp ->
  (0 < ncols x)%nat ->
  surrogate_shaped (constraint_model self) ->
  primary_shaped_wg self x ->
  exists f_acqu df_acqu d_prob,
    _compute_acq_withGradients self x = Ok (f_acqu, df_acqu) /\
    calc_gradient_of_P x (constraint_model self) (beta self) mp
      (lengthscale self) = Ok (Some d_prob) /\
    shape f_acqu = (nrows x, 1%nat) /\ shape df_acqu = shape x /\
    forall r, (r < nrows x)%nat ->
      let prob := probability x (constraint_model self) (beta self) mp r in
      get f_acqu r 0 = (EI_wg self x r * prob)%fl /\
      forall c, (c < ncols x)%nat ->
        get df_acqu r c =
        (d_EI self x r c * prob + (EI_wg self x r * prob) * get d_prob r c)%fl.
Proof.
  intros Hmp Hd Hcm Hshape.
  unfold _compute_acq_withGradients, EI_wg, d_EI, primary_shaped_wg in *.
  destruct (predict_withGradients (model self) x) as [[[m s] dmdx] dsdx].
  destruct (get_quantiles (jitter self) (get_fmin (model self)) m s)
    as [[phi Phi] u].
  destruct Hshape as (Hs & Hphi & HPhi & Hu & Hdm & Hds).
  unfold arr_add, arr_sub, arr_mul.
  do 3 run_cols (nrows x).
  run_mat_col (nrows x) (ncols x).
  run_col_mat (nrows x) (ncols x).
  run_same (nrows x) (ncols x).
  rewrite Hmp. cbn [getattr rbind].
  pose proof (calc_P_shape x (constraint_model self) (beta self) mp Hcm) as Sp.
  assert (Ep : forall r, get (snd (calc_P x (constraint_model self) (beta self) mp)) r 0
                         = probability x (constraint_model self) (beta self) mp r)
    by reflexivity.
  destruct (calc_P x (constraint_model self) (beta self) mp) as [mean prob].
  cbn [snd] in Sp, Ep.
  run_cols (nrows x).
  destruct (calc_gradient_of_P_first_dimension_only x (constraint_model self)
              (beta self) mp (lengthscale self) Hd Hcm)
    as (g & Eg & Sg & _).
  rewrite Eg. cbn [rbind].
  run_mat_col (nrows x) (ncols x).
  run_col_mat (nrows x) (ncols x).
  run_same (nrows x) (ncols x).
  exists c5, c8, g. repeat split; try assumption.
  - rewrite Hg5, Hg1, Hg0, Hg, Ep by assumption. reflexivity.
  - intros k Hk.
    rewrite Hg8, Hg6, Hg7, Hg4, Hg2, Hg3, Hg5, Hg1, Hg0, Hg, Ep by assumption.
    reflexivity.
Qed.

End WithGradients.

(** C2.  On the one-point batch x = (0), with the sample primary model
    (EI = 0.4, d_EI = -0.5), beta = 1, midpoint = 0, lengthscale = 1000 and a
    surrogate with mean x (prob = 0.5), the returned value is EI*prob and the
    returned gradient is d_EI*prob + (EI*prob)*d_prob, d_prob being the
    output of [calc_gradient_of_P]; that is not the product rule
    d_EI*prob + EI*d_prob. *)
Theorem _compute_acq_withGradients_reuses_multiplied_value :
  let self := sample_self (Some (sample_surrogate 1)) 1 0 1000 in
  let x := row [0] in
  let prob := probability (H0 := sample_world) x (constraint_model self) 1 0 0 in
  let ei := EI_wg (H0 := sample_world) self x 0 in
  let d_ei := d_EI (H0 := sample_world) self x 0 0 in
  exists f_acqu df_acqu d_prob,
    _compute_acq_withGradients (H0 := sample_world) self x = Ok (f_acqu, df_acqu) /\
    calc_gradient_of_P (H0 := sample_world) x (constraint_model self) 1 0 1000
    = Ok (Some d_prob) /\
    get f_acqu 0 0 = ei * prob /\
    get df_acqu 0 0 = d_ei * prob + (ei * prob) * get d_prob 0 0 /\
    get df_acqu 0 0 <> d_ei * prob + ei * get d_prob 0 0.
Proof.
  intros self x prob ei d_ei.
  assert (Hd : (0 < ncols x)%nat) by (cbn; lia).
  pose proof (sample_surrogate_shaped 1) as Hcm.
  destruct (_compute_acq_withGradients_returns (H0 := sample_world) self x 0
              eq_refl Hd Hcm)
    as (f_acqu & df_acqu & g & E & Eg & _ & _ & Hval).
  { cbn. repeat split. }
  destruct (calc_gradient_of_P_first_dimension_only (H0 := sample_world) x
              (constraint_model self) 1 0 1000 Hd Hcm)
    as (g' & Eg' & _ & Hcol & _).
  change (beta self) with 1 in Eg. change (lengthscale self) with 1000 in Eg.
  rewrite Eg in Eg'. injection Eg' as <-.
  assert (Hr : (0 < nrows x)%nat) by (cbn; lia).
  destruct (Hval 0%nat Hr) as [Hf Hdf].
  specialize (Hdf 0%nat Hd).
  exists f_acqu, df_acqu, g. split; [exact E |]. split; [exact Eg |].
  split; [exact Hf |]. split; [exact Hdf |].
  rewrite Hdf, (Hcol 0%nat Hr).
  change (beta self) with 1.
  fold prob ei d_ei.
  set (d_prob := central_difference x (constraint_model self) 1 0 1000 0 0).
  assert (Hei : ei = 0.4).
  { unfold ei, EI_wg. cbn. lra. }
  assert (Hprob : prob = 0.5).
  { unfold prob, probability. cbn.
    replace ((0 + 0 - 0) / 1) with 0 by lra. rewrite exp_0. lra. }
  assert (Hdp : d_prob < 0).
  { unfold d_prob, central_difference, probability. cbn.
    replace ((0 + (0 + 1000 / 1000) - 0) / 1) with 1 by lra.
    replace ((0 + (0 - 1000 / 1000) - 0) / 1) with (-1) by lra.
    replace (2 * (1000 / 1000)) with 2 by lra.
    assert (Hlt : 1 / (1 + exp 1) < 1 / (1 + exp (-1))).
    { apply inv_one_plus_decreasing; [apply exp_pos |].
      apply exp_increasing. lra. }
    lra. }
  cbv [f_add f_mul R_Float64]. rewrite Hei, Hprob. intros Hc. lra.
Qed.

(** ** Non-finite candidates *)

(** [_compute_acq] returns EI*prob on every batch: no entry of the batch
    is inspected before or after the primary model is called. *)
Lemma _compute_acq_returns {F : Type} `{Float64 F} `{World F}
      (self : AcquisitionEI_DFT F) (x : ndarray F) (mp : F) :
  midpoint self = Some mp ->
  surrogate_shaped (constraint_model self) ->
  primary_shaped self x ->
  exists acq,
    _compute_acq self x = Ok acq /\ shape acq = (nrows x, 1%nat) /\
    forall r, (r < nrows x)%nat ->
      get acq r 0
      = (EI self x r * probability x (constraint_model self) (beta self) mp r)%fl.
Proof.
  intros Hmp Hcm Hshape.
  unfold _compute_acq, EI, primary_shaped in *.
  destruct (predict (model self) x) as [m s].
  destruct (get_quantiles (jitter self) (get_fmin (model self)) m s)
    as [[phi Phi] u].
  destruct Hshape as (Hs & Hphi & HPhi & Hu).
  unfold arr_add, arr_mul.
  do 3 run_cols (nrows x).
  rewrite Hmp. cbn [getattr rbind].
  pose proof (calc_P_shape x (constraint_model self) (beta self) mp Hcm) as Sp.
  assert (Ep : forall r, get (snd (calc_P x (constraint_model self) (beta self) mp)) r 0
                         = probability x (constraint_model self) (beta self) mp r)
    by reflexivity.
  destruct (calc_P x (constraint_model self) (beta self) mp) as [mean prob].
  cbn [snd] in Sp, Ep.
  do 6 run_cols (nrows x).
  exists c2. repeat split; [assumption |].
  intros r Hr. rewrite Hg2, Hg1, Hg0, Hg, Ep by assumption. reflexivity.
Qed.

(** C4.  On the batch whose only coordinate is NaN both evaluations call the
    primary model and return normally, the value being NaN: nothing is
    raised. *)
Theorem acquisition_returns_on_nan :
  let x := row [NaN] in
  let self := sample_self None (Fin 0.025) (Fin 0) (Fin 0.03) in
  any_isnan x = true /\
  (exists acq,
     _compute_acq (H0 := sample_world) self x = Ok acq /\
     get acq 0 0 = NaN) /\
  (exists f_acqu df_acqu,
     _compute_acq_withGradients (H0 := sample_world) self x
     = Ok (f_acqu, df_acqu) /\
     get f_acqu 0 0 = NaN /\ get df_acqu 0 0 = NaN).
Proof.
  cbn zeta. split; [reflexivity |]. split.
  - eexists. split; [reflexivity |]. reflexivity.
  - eexists. eexists. split; [reflexivity |]. split; reflexivity.
Qed.

(** ** The constructor *)

Section Constructor.
Context {F : Type} `{Float64 F} `{World F}.

Lemma bind_ok {A B} (c : M F A) (k : A -> M F B) (log log' : list (call F))
      (a : A) :
  c log = (Ok a, log') -> bind c k log = k a log'.
Proof. intros E. unfold bind. now rewrite E. Qed.

Lemma bind_raise {A B} (c : M F A) (k : A -> M F B) (log log' : list (call F))
      (e : exn) :
  c log = (Raise e, log') -> bind c k log = (Raise e, log').
Proof. intros E. unfold bind. now rewrite E. Qed.

Lemma bind_inv {A B} (c : M F A) (k : A -> M F B) (log log' : list (call F))
      (b : B) :
  bind c k log = (Ok b, log') ->
  exists a log1, c log = (Ok a, log1) /\ k a log1 = (Ok b, log').
Proof.
  unfold bind. destruct (c log) as [[a | e] log1]; [| discriminate].
  intros E. now exists a, log1.
Qed.

Lemma plot_P_raises (cm : option (GPRegression F)) (beta : F)
      (data_type : string) (mp : F) :
  plot_P cm beta data_type mp = Raise ValueError.
Proof. reflexivity. Qed.

Lemma GP_model_None (target : option string) (ls var nv : option F)
      (inputs : option (list string)) (log : list (call F)) :
  GP_model None target ls var nv inputs log = (Ok None, log).
Proof. reflexivity. Qed.

Lemma GP_model_empty (data : DataFrame F) (target : option string)
      (ls var nv : option F) (inputs : option (list string))
      (log : list (call F)) :
  df_empty data = true ->
  GP_model (Some data) target ls var nv inputs log = (Ok None, log).
Proof. intros He. unfold GP_model. now rewrite He. Qed.

(** The constructor with an auxiliary model that is [None]. *)
Lemma __init___None_model (model : PrimaryModel F) (jitter : F)
      (p : option (params F)) (log : list (call F)) :
  let ei_dft_params := match p with Some q => q | None => default_params end in
  (df_model ei_dft_params = Some None \/
   (df_model ei_dft_params = None /\
    (df_data ei_dft_params = None \/ df_data ei_dft_params = Some None \/
     exists d, df_data ei_dft_params = Some (Some d) /\ df_empty d = true))) ->
  __init__ model jitter p log = (Raise AttributeError, log).
Proof.
  intros q Hq. unfold __init__. fold q.
  destruct Hq as [Hm | [Hm Hdata]]; rewrite Hm.
  - reflexivity.
  - destruct Hdata as [Hd | [Hd | (d & Hd & He)]]; rewrite Hd.
    + erewrite bind_ok;
        [| erewrite bind_ok; [| apply GP_model_None]; reflexivity].
      reflexivity.
    + erewrite bind_ok;
        [| erewrite bind_ok; [| apply GP_model_None]; reflexivity].
      reflexivity.
    + erewrite bind_ok;
        [| erewrite bind_ok; [| apply GP_model_empty, He]; reflexivity].
      reflexivity.
Qed.

(** What a constructor call that returns has stored. *)
Lemma __init___returns (model : PrimaryModel F) (jitter : F)
      (p : option (params F)) (log log' : list (call F))
      (self : AcquisitionEI_DFT F) :
  __init__ model jitter p log = (Ok self, log') ->
  let q := match p with Some q => q | None => default_params end in
  (exists cm, constraint_model self = Some cm /\
              lengthscale self = k_lengthscale (kern cm) /\
              variance self = k_variance (kern cm)) /\
  match p_midpoint q with
  | Some v =>
      midpoint self = Some v /\
      beta self = match p_beta q with Some b => b | None => lit 0.025 end
  | None => midpoint self = None /\ beta self = lit 0
  end.
Proof.
  intros E q. unfold __init__ in E. fold q in E.
  unfold bind at 1 in E.
  match type of E with
  | context [match ?c log with _ => _ end] =>
      destruct (c log) as [[[cm data] | e] log1]
  end; [| discriminate].
  destruct cm as [cm |]; [| discriminate].
  unfold bind at 1 in E. cbn [lift getattr] in E.
  destruct (p_midpoint q) as [v |];
    apply bind_inv in E as (n & log2 & _ & E);
    apply bind_inv in E as (u & log3 & _ & E);
    unfold ret in E; injection E as <- <-; cbn;
    (split; [exists cm; repeat split | split; reflexivity]).
Qed.

End Constructor.

(** C10.  The constructor raises [AttributeError] whenever the auxiliary
    model it arrives at is [None]: with [ei_dft_params=None], with a
    dictionary that maps 'df_model' to [None], and without 'df_model' when
    the data are absent, [None] or empty; an instance it returns therefore
    never has a [None] model. *)
Theorem constructor_raises_without_auxiliary_model
        {F : Type} `{Float64 F} `{World F} :
  (forall model jitter log,
     __init__ model jitter None log = (Raise AttributeError, log)) /\
  (forall model jitter p log,
     df_model p = Some None ->
     __init__ model jitter (Some p) log = (Raise AttributeError, log)) /\
  (forall model jitter p log,
     df_model p = None ->
     (df_data p = None \/ df_data p = Some None \/
      exists d, df_data p = Some (Some d) /\ df_empty d = true) ->
     __init__ model jitter (Some p) log = (Raise AttributeError, log)) /\
  (forall model jitter p log log' self,
     __init__ model jitter p log = (Ok self, log') ->
     constraint_model self <> None).
Proof.
  split; [| split; [| split]].
  - intros model jitter log.
    apply (__init___None_model model jitter None log). left. reflexivity.
  - intros model jitter p log Hm.
    apply (__init___None_model model jitter (Some p) log). left. exact Hm.
  - intros model jitter p log Hm Hd.
    apply (__init___None_model model jitter (Some p) log). right. now split.
  - intros model jitter p log log' self E.
    destruct (__init___returns model jitter p log log' self E)
      as [(cm & Hcm & _) _].
    rewrite Hcm. discriminate.
Qed.

Lemma constructor_raises_without_auxiliary_model_witness :
  __init__ (H0 := sample_world) sample_primary 0.01
    (Some params_without_data) [] = (Raise AttributeError, []).
Proof.
  destruct (@constructor_raises_without_auxiliary_model R _ sample_world)
    as (_ & _ & Hdata & _).
  apply Hdata; [reflexivity | left; reflexivity].
Defined.

(** C9.  With a dictionary that holds 'p_beta': 0.5 and no 'p_midpoint' the
    constructor returns an instance whose [beta] is 0 and whose [midpoint]
    was never assigned. *)
Theorem constructor_without_p_midpoint_resets_beta :
  exists self,
    __init__ (H0 := sample_world) sample_primary 0.01
      (Some params_without_midpoint) [] = (Ok self, []) /\
    p_beta (params_without_midpoint (F := R)) = Some 0.5 /\
    beta self = 0 /\
    midpoint self = None.
Proof.
  eexists. split; [reflexivity |]. repeat split.
Qed.

(** ** Building the auxiliary model *)

Section Builder.
Context {F : Type} `{Float64 F} `{World F}.

Lemma df_values_ok (data : DataFrame F) (labels : list string) :
  forallb (has_column data) labels = true ->
  exists X, df_values data (map Some labels) = Ok X /\
            nrows X = df_nrows data /\ ncols X = List.length labels.
Proof.
  intros Hl. unfold df_values.
  assert (E : forallb (fun l => match l with
                                | Some c => has_column data c
                                | None => false
                                end) (map Some labels)
              = forallb (has_column data) labels).
  { clear Hl. induction labels as [| c l IH]; cbn; [reflexivity | now rewrite IH]. }
  rewrite E, Hl. eexists. split; [reflexivity |].
  cbn. now rewrite length_map.
Qed.

Lemma entries_cons (a : ndarray F) :
  (0 < nrows a)%nat -> (0 < ncols a)%nat ->
  exists y l, entries a = y :: l.
Proof.
  intros Hn Hd. unfold entries.
  destruct (nrows a) as [| n]; [lia |].
  destruct (ncols a) as [| d]; [lia |].
  cbn. eauto.
Qed.

Lemma df_nonempty (data : DataFrame F) :
  df_empty data = false ->
  (0 < df_nrows data)%nat /\ (0 < List.length (df_columns data))%nat.
Proof.
  unfold df_empty. intros He. apply orb_false_elim in He as [Hn Hc].
  apply Nat.eqb_neq in Hn, Hc. lia.
Qed.

(** The run of [GP_model] on a frame that is not empty: the kernel and the
    regression are created; each bound is set when its interval is proper
    and raises [AssertionError] otherwise; between the two bounds a
    [variance] that is [None] raises [TypeError]. *)
Lemma GP_model_runs (data : DataFrame F) (target : option string)
      (inputs : list string) (lengthscale variance noise_variance : option F)
      (X Y : ndarray F) (Ymax hi lo : F) :
  df_empty data = false ->
  df_values data (map Some inputs) = Ok X ->
  df_values data [target] = Ok Y ->
  arr_max Y = Ok Ymax -> arr_max X = Ok hi -> arr_min X = Ok lo ->
  let noise_var :=
    corrected_value noise_variance (lit 0.01 * arr_var Y)%fl (lit 1e-12) in
  let kernel_var := corrected_value variance (arr_var Y) (lit 1) in
  let kernel_ls := corrected_value lengthscale (hi - lo)%fl (lit 1) in
  let setup :=
    [GPy_kern_Matern52 (ncols X) kernel_ls kernel_var;
     GPy_models_GPRegression X Y noise_var] in
  let noise_upper := (noise_var + Ymax * Ymax)%fl in
  let run :=
    GP_model (Some data) target lengthscale variance noise_variance
      (Some inputs) [] in
  if f_lt (lit 1e-12) noise_upper then
    match variance with
    | None =>
        run = (Raise TypeError,
               setup ++ [Gaussian_noise_constrain_bounded (lit 1e-12) noise_upper])
    | Some v =>
        if f_lt (v * lit 1e-12)%fl (v + Ymax * Ymax)%fl then
          exists m,
            run = (Ok (Some m),
                   setup ++
                   [Gaussian_noise_constrain_bounded (lit 1e-12) noise_upper;
                    Mat52_variance_constrain_bounded (v * lit 1e-12)%fl
                      (v + Ymax * Ymax)%fl;
                    optimize_restarts 1000 5]) /\
            gp_X m = X /\ gp_Y m = Y /\ input_dim (kern m) = ncols X /\
            Gaussian_noise_bounds m = Some (lit 1e-12, noise_upper) /\
            k_variance_bounds (kern m)
            = Some ((v * lit 1e-12)%fl, (v + Ymax * Ymax)%fl) /\
            (k_lengthscale (kern m), k_variance (kern m), Gaussian_noise m)
            = gpy_optimum
                (mk_GPRegression X Y
                   (mk_Matern52 (ncols X) kernel_ls kernel_var
                      (Some ((v * lit 1e-12)%fl, (v + Ymax * Ymax)%fl)))
                   noise_var (Some (lit 1e-12, noise_upper)))
                1000 5
        else
          run = (Raise AssertionError,
                 setup ++
                 [Gaussian_noise_constrain_bounded (lit 1e-12) noise_upper])
    end
  else run = (Raise AssertionError, setup).
Proof.
  intros He EX EY EYmax Ehi Elo noise_var kernel_var kernel_ls setup
         noise_upper run.
  assert (Els : match lengthscale with
                | None =>
                    (hi <- arr_max X ;; lo <- arr_min X ;;
                     let kernel_ls := (hi - lo)%fl in
                     Ok (if f_eq kernel_ls (lit 0) then lit 1 else kernel_ls))%py
                | Some kernel_ls =>
                    if f_le kernel_ls (lit 0) then
                      (hi <- arr_max X ;; lo <- arr_min X ;;
                       let kernel_ls := (hi - lo)%fl in
                       Ok (if f_eq kernel_ls (lit 0) then lit 1 else kernel_ls))%py
                    else Ok kernel_ls
                end = Ok kernel_ls).
  { unfold kernel_ls, corrected_value. rewrite Ehi, Elo. cbn [rbind].
    destruct lengthscale as [l |]; [destruct (f_le l (lit 0)) |]; reflexivity. }
  cbv zeta in Els. unfold run, GP_model. rewrite He, EX. cbv zeta.
  cbv beta iota delta [bind lift ret emit raise Matern52_new GPRegression_new
       constrain_bounded_noise constrain_bounded_variance
       model_optimize_restarts].
  rewrite EY, Els, EYmax. cbv beta iota zeta.
  unfold setup, noise_upper, noise_var, kernel_var, corrected_value.
  match goal with |- if ?c then _ else _ => destruct c end; [| reflexivity].
  destruct variance as [v |]; cbv beta iota zeta; [| reflexivity].
  destruct (f_lt (v * lit 1e-12)%fl (v + Ymax * Ymax)%fl); [| reflexivity].
  match goal with
  | |- context [gpy_optimum ?m 1000%nat 5%nat] =>
      destruct (gpy_optimum m 1000%nat 5%nat) as [[ls' var'] noise'] eqn:Eopt
  end.
  eexists. split; [reflexivity |]. cbn.
  repeat (split; [reflexivity |]). symmetry. exact Eopt.
Qed.

Lemma reduce_cons (f : F -> F -> F) (a : ndarray F) (y : F) (l : list F) :
  entries a = y :: l -> reduce f a = Ok (fold_left f l y).
Proof. intros E. unfold reduce. now rewrite E. Qed.

(** The design matrix and the target column of a frame that is not empty
    and holds the columns asked for. *)
Lemma frame_arrays (data : DataFrame F) (target : string) (inputs : list string) :
  df_empty data = false -> frame_has data target inputs -> inputs <> [] ->
  exists X Y x0 xs y0 ys,
    df_values data (map Some inputs) = Ok X /\
    df_values data [Some target] = Ok Y /\
    entries X = x0 :: xs /\ entries Y = y0 :: ys.
Proof.
  intros He [Ht Hi] Hne.
  destruct (df_nonempty data He) as [Hn _].
  destruct (df_values_ok data inputs Hi) as (X & EX & HXn & HXd).
  destruct (df_values_ok data [target]) as (Y & EY & HYn & HYd).
  { cbn. now rewrite Ht. }
  destruct (entries_cons X) as (x0 & xs & Ex).
  { lia. }
  { rewrite HXd. destruct inputs; [congruence | cbn; lia]. }
  destruct (entries_cons Y) as (y0 & ys & Ey).
  { lia. }
  { rewrite HYd. cbn. lia. }
  exists X, Y, x0, xs, y0, ys. repeat split; assumption.
Qed.

(** A run of [GP_model] that returns [None] had no data to work on. *)
Lemma GP_model_None_inv (data : option (DataFrame F)) (target : option string)
      (ls var nv : option F) (inputs : option (list string))
      (log log' : list (call F)) :
  GP_model data target ls var nv inputs log = (Ok None, log') ->
  data = None \/ exists d, data = Some d /\ df_empty d = true.
Proof.
  intros E. destruct data as [d |]; [| now left].
  right. exists d. split; [reflexivity |].
  unfold GP_model in E. destruct (df_empty d); [reflexivity | exfalso].
  cbv zeta in E.
  repeat (apply bind_inv in E as (? & ? & _ & E)).
  unfold ret in E. discriminate.
Qed.

End Builder.

(** ** Sums, ranges and variances *)

Lemma fold_left_Rplus_acc (l : list R) (a : R) :
  fold_left Rplus l a = a + fold_left Rplus l 0.
Proof.
  revert a. induction l as [| y l IH]; intros a; cbn.
  - lra.
  - rewrite (IH (a + y)), (IH (0 + y)). lra.
Qed.

Lemma sum_const (l : list R) (c : R) :
  (forall y, In y l -> y = c) ->
  fold_left Rplus l 0 = INR (List.length l) * c.
Proof.
  induction l as [| y l IH]; intros Hc.
  - cbn. lra.
  - cbn [fold_left List.length]. rewrite fold_left_Rplus_acc, IH, S_INR.
    + rewrite (Hc y) by (now left). lra.
    + intros z Hz. apply Hc. now right.
Qed.

Lemma sum_squares_nonneg (l : list R) :
  0 <= fold_left Rplus (map (fun d => d * d) l) 0.
Proof.
  induction l as [| y l IH]; cbn.
  - lra.
  - rewrite fold_left_Rplus_acc. nra.
Qed.

Lemma sum_squares_zero (l : list R) :
  fold_left Rplus (map (fun d => d * d) l) 0 = 0 ->
  forall d, In d l -> d = 0.
Proof.
  induction l as [| y l IH]; cbn; intros E d Hd; [contradiction |].
  rewrite fold_left_Rplus_acc in E.
  pose proof (sum_squares_nonneg l) as Hl.
  destruct Hd as [<- | Hd].
  - nra.
  - apply IH; [nra | exact Hd].
Qed.





(** Without rounding, the variance of the entries is never negative, and
    is zero exactly when all entries are equal.  (With rounding only the
    first part is kept, see [rounded_var_nonneg].) *)
Lemma arr_var_nonneg_zero_iff_constant (a : ndarray R) (y : R) (l : list R) :
  entries a = y :: l ->
  0 <= arr_var a /\ (arr_var a = 0 <-> constant a).
Proof.
  intros E. unfold arr_var, constant, f_sum. rewrite E.
  cbn [f_add f_sub f_mul f_div lit R_Float64].
  set (L := y :: l).
  set (n := INR (List.length L)).
  set (mean := fold_left Rplus L 0 / n).
  set (devs := map (fun z => z - mean) L).
  assert (Hn : 0 < n).
  { unfold n, L. cbn [List.length]. rewrite S_INR.
    pose proof (pos_INR (List.length l)). lra. }
  pose proof (sum_squares_nonneg devs) as Hsq.
  split; [apply Rmult_le_pos; [exact Hsq | left; now apply Rinv_0_lt_compat] |].
  split.
  - intros H0.
    assert (Hz : fold_left Rplus (map (fun d => d * d) devs) 0 = 0).
    { unfold Rdiv in H0. apply Rmult_integral in H0 as [H0 | H0]; [exact H0 |].
      pose proof (Rinv_0_lt_compat n Hn). lra. }
    assert (Hall : forall u, In u L -> u = mean).
    { intros u Hu.
      pose proof (sum_squares_zero devs Hz (u - mean)) as Hd.
      specialize (Hd (in_map (fun z => z - mean) L u Hu)). lra. }
    intros u v Hu Hv. rewrite (Hall u Hu), (Hall v Hv). reflexivity.
  - intros Hc.
    assert (Hall : forall u, In u L -> u = y).
    { intros u Hu. apply Hc; [exact Hu | now left]. }
    assert (Hmean : mean = y).
    { unfold mean. rewrite (sum_const L y Hall). fold n. field. lra. }
    assert (Hdev : forall d, In d (map (fun d => d * d) devs) -> d = 0).
    { intros d Hd. unfold devs in Hd. rewrite map_map in Hd.
      apply in_map_iff in Hd as (u & <- & Hu).
      rewrite (Hall u Hu), Hmean. ring. }
    rewrite (sum_const _ 0 Hdev). unfold Rdiv. ring.
Qed.

Section RoundedFacts.
Variables rnd fexp : R -> R.
Hypothesis Hrnd : rounding rnd.

Lemma rnd_nonneg (x : R) : 0 <= x -> 0 <= rnd x.
Proof. intros Hx. rewrite <- (rnd_0 rnd Hrnd). now apply rnd_monotone. Qed.

Lemma rounded_sum_nonneg (l : list R) (a : R) :
  0 <= a -> (forall y, In y l -> 0 <= y) ->
  0 <= fold_left (fun u v => rnd (u + v)) l a.
Proof.
  revert a. induction l as [| y l IH]; intros a Ha Hl; cbn; [exact Ha |].
  apply IH.
  - apply rnd_nonneg. pose proof (Hl y (or_introl eq_refl)). lra.
  - intros z Hz. apply Hl. now right.
Qed.

(** The rounded variance of the entries is never negative. *)
Lemma rounded_var_nonneg (a : ndarray R) (y : R) (l : list R) :
  entries a = y :: l -> 0 <= arr_var (H := rounded_Float64 rnd fexp) a.
Proof.
  intros E. unfold arr_var, f_sum. rewrite E.
  cbn [f_add f_sub f_mul f_div lit rounded_Float64].
  set (L := y :: l).
  set (n := rnd (INR (List.length L))).
  assert (Hn : 1 <= n).
  { unfold n. rewrite <- (rnd_1 rnd Hrnd). apply rnd_monotone; [exact Hrnd |].
    unfold L. cbn [List.length]. rewrite S_INR.
    pose proof (pos_INR (List.length l)). lra. }
  apply rnd_nonneg. apply Rmult_le_pos.
  - apply rounded_sum_nonneg; [rewrite (rnd_0 rnd Hrnd); lra |].
    intros z Hz. rewrite map_map in Hz.
    apply in_map_iff in Hz as (u & <- & _). apply rnd_nonneg. nra.
  - left. apply Rinv_0_lt_compat. lra.
Qed.



Lemma rounded_corrected_value_pos (supplied : option R) (estimate floor : R) :
  0 <= estimate -> 0 < floor ->
  0 < corrected_value (H := rounded_Float64 rnd fexp) supplied estimate floor.
Proof.
  intros He Hf. unfold corrected_value.
  cbn [f_le f_eq lit rounded_Float64]. rewrite (rnd_0 rnd Hrnd).
  unfold Rleb, Reqb.
  destruct (Req_dec_T estimate 0); destruct supplied as [v |];
    try destruct (Rle_dec v 0); lra.
Qed.

End RoundedFacts.

(** The initial noise variance is positive in exact arithmetic. *)
Lemma noise_var_pos (noise_variance : option R) (Y : ndarray R) (y : R)
      (l : list R) :
  entries Y = y :: l ->
  0 < corrected_value noise_variance (0.01 * arr_var Y) 1e-12.
Proof.
  intros E.
  apply (rounded_corrected_value_pos (fun x => x) exp rounding_id).
  - pose proof (rounded_var_nonneg (fun x => x) exp rounding_id Y y l E) as Hv.
    change (0 <= arr_var Y) in Hv. lra.
  - lra.
Qed.

(** Proves that the interval of the noise variance is proper, in exact
    arithmetic, when the square of the largest target is at least 1. *)
Ltac noise_interval_is_proper :=
  apply f_lt_true;
  match goal with
  | |- _ < (corrected_value ?nv (_ * arr_var ?Y)%fl _ + _)%fl =>
      pose proof (noise_var_pos nv Y _ _ eq_refl)
  end;
  cbv [f_add f_mul lit R_Float64] in *; nra.

(** C6.  [GP_model] returns [None], without raising, when the data are
    [None] or [data.empty] holds, and only then; a frame is empty when it
    has no row or no column.  On any other frame that holds the columns
    asked for, with a numeric [variance] and two proper bound intervals, it
    returns a model on the input columns and the target column, with the
    hyperparameters the optimizer found (1000 iterations, 5 restarts) for a
    regression on these data. *)
Theorem GP_model_None_iff_no_data {F : Type} `{Float64 F} `{World F} :
  (forall target ls var nv inputs log,
     GP_model None target ls var nv inputs log = (Ok None, log)) /\
  (forall data target ls var nv inputs log,
     df_empty data = true ->
     GP_model (Some data) target ls var nv inputs log = (Ok None, log)) /\
  (forall data target ls var nv inputs log log',
     GP_model data target ls var nv inputs log = (Ok None, log') ->
     data = None \/ exists d, data = Some d /\ df_empty d = true) /\
  (forall data : DataFrame F,
     df_empty data = true <-> df_nrows data = 0%nat \/ df_columns data = []) /\
  (forall data target inputs ls v nv,
     df_empty data = false -> frame_has data target inputs -> inputs <> [] ->
     exists X Y Ymax,
       df_values data (map Some inputs) = Ok X /\
       df_values data [Some target] = Ok Y /\
       arr_max Y = Ok Ymax /\
       (f_lt (lit 1e-12)
          (corrected_value nv (lit 0.01 * arr_var Y) (lit 1e-12)
           + Ymax * Ymax)%fl = true ->
        f_lt (v * lit 1e-12)%fl (v + Ymax * Ymax)%fl = true ->
        exists m m0,
          fst (GP_model (Some data) (Some target) ls (Some v) nv
                 (Some inputs) []) = Ok (Some m) /\
          gp_X m = X /\ gp_Y m = Y /\ input_dim (kern m) = ncols X /\
          gp_X m0 = X /\ gp_Y m0 = Y /\
          (k_lengthscale (kern m), k_variance (kern m), Gaussian_noise m)
          = gpy_optimum m0 1000 5)).
Proof.
  split; [| split; [| split; [| split]]].
  - intros. apply GP_model_None.
  - intros. now apply GP_model_empty.
  - intros data target ls var nv inputs log log'. apply GP_model_None_inv.
  - intros data. unfold df_empty. rewrite orb_true_iff, !Nat.eqb_eq.
    destruct (df_columns data) as [| c l]; cbn; split;
      intros [Hn | Hc]; auto; discriminate.
  - intros data target inputs ls v nv He Hf Hne.
    destruct (frame_arrays data target inputs He Hf Hne)
      as (X & Y & x0 & xs & y0 & ys & EX & EY & Ex & Ey).
    pose proof (GP_model_runs data (Some target) inputs ls (Some v) nv X Y
                  (fold_left f_max ys y0) (fold_left f_max xs x0)
                  (fold_left f_min xs x0) He EX EY
                  (reduce_cons f_max Y y0 ys Ey)
                  (reduce_cons f_max X x0 xs Ex)
                  (reduce_cons f_min X x0 xs Ex)) as Hrun.
    cbv zeta in Hrun.
    exists X, Y, (fold_left f_max ys y0).
    split; [exact EX |]. split; [exact EY |].
    split; [exact (reduce_cons f_max Y y0 ys Ey) |].
    intros Hn Hv. rewrite Hn, Hv in Hrun.
    destruct Hrun as (m & Em & HX & HY & Hd & _ & _ & Hopt).
    exists m. eexists. rewrite Em.
    split; [reflexivity |]. split; [exact HX |]. split; [exact HY |].
    split; [exact Hd |]. split; [| split; [| exact Hopt]]; reflexivity.
Qed.

(** C6, the claim as it stands: a frame with two rows and no column is not
    a dataset of zero rows, and [GP_model] returns [None] on it. *)
Lemma GP_model_None_on_rows_without_columns :
  GP_model (H0 := sample_world) (Some frame_without_columns)
    (Some "dGmix (ev/f.u.)"%string) (Some 0.03) (Some 2) None
    (Some ["CsPbI"; "MAPbI"]%string) [] = (Ok None, []) /\
  df_nrows (frame_without_columns (F := R)) = 2%nat.
Proof. split; reflexivity. Qed.

Lemma GP_model_None_iff_no_data_witness :
  exists m,
    fst (GP_model (H0 := sample_world) (Some sample_frame)
           (Some "dGmix (ev/f.u.)"%string) None (Some 2) None
           (Some ["CsPbI"; "MAPbI"]%string) [])
    = Ok (Some m) /\
    ncols (gp_X m) = 2%nat /\ nrows (gp_Y m) = 2%nat.
Proof.
  destruct (@GP_model_None_iff_no_data R _ sample_world)
    as (_ & _ & _ & _ & Hfit).
  destruct (Hfit sample_frame "dGmix (ev/f.u.)"%string
              ["CsPbI"; "MAPbI"]%string None 2 None)
    as (X & Y & Ymax & EX & EY & EYmax & Hm).
  - reflexivity.
  - split; reflexivity.
  - discriminate.
  - injection EX as <-. injection EY as <-.
    assert (HY1 : Ymax = 1).
    { cbn in EYmax. injection EYmax as <-.
      unfold Rmax. destruct (Rle_dec (-1) 1); lra. }
    subst Ymax.
    destruct Hm as (m & m0 & Em & HX & HY & _).
    + noise_interval_is_proper.
    + apply f_lt_true. cbv [f_add f_mul lit R_Float64]. nra.
    + exists m. split; [exact Em |]. rewrite HX, HY. split; reflexivity.
Defined.




(** ** Initial hyperparameters *)



Section Binary64Variance.
Import PrimFloat.
Local Open Scope float_scope.


End Binary64Variance.

(** * Further properties of the code *)

(** ** [calc_gradient_of_P] *)

Section GradientMore.
Context {F : Type} `{Float64 F} `{World F}.

(** X1.  On a batch with at least one column the result has the shape of
    the batch; its first column is the central difference along the first
    dimension; every other column is the same whatever surrogate, beta,
    midpoint and lengthscale are passed: it is what [np.empty] returned. *)
Theorem calc_gradient_of_P_informs_first_column_only
        (x : ndarray F) (cm cm' : option (GPRegression F))
        (beta midpoint lengthscale beta' midpoint' lengthscale' : F) :
  (0 < ncols x)%nat -> surrogate_shaped cm -> surrogate_shaped cm' ->
  exists g g',
    calc_gradient_of_P x cm beta midpoint lengthscale = Ok (Some g) /\
    calc_gradient_of_P x cm' beta' midpoint' lengthscale' = Ok (Some g') /\
    shape g = shape x /\
    (forall r, (r < nrows x)%nat ->
       get g r 0 = central_difference x cm beta midpoint lengthscale r 0) /\
    (forall r j, j <> 0%nat ->
       get g r j = get g' r j /\ get g r j = get (np_empty (shape x)) r j).
Proof.
  intros Hd Hcm Hcm'.
  destruct (calc_gradient_of_P_first_dimension_only x cm beta midpoint
              lengthscale Hd Hcm) as (g & E & Hs & Hc & Hu).
  destruct (calc_gradient_of_P_first_dimension_only x cm' beta' midpoint'
              lengthscale' Hd Hcm') as (g' & E' & _ & _ & Hu').
  exists g, g'. repeat split; try assumption.
  - rewrite Hu, Hu' by assumption. reflexivity.
  - rewrite Hu by assumption. reflexivity.
Qed.

Lemma calc_gradient_of_P_no_columns (x : ndarray F)
      (cm : option (GPRegression F)) (beta midpoint lengthscale : F) :
  ncols x = 0%nat ->
  calc_gradient_of_P x cm beta midpoint lengthscale = Ok None.
Proof. intros Hd. unfold calc_gradient_of_P. rewrite Hd. reflexivity. Qed.

(** X2.  On a batch without columns [calc_gradient_of_P] returns [None]
    (the loop body never runs), and [_compute_acq_withGradients] then raises
    [TypeError] when it multiplies by it. *)
Theorem no_columns_gradient_is_None_and_TypeError
        (self : AcquisitionEI_DFT F) (x : ndarray F) (mp : F) :
  ncols x = 0%nat ->
  midpoint self = Some mp ->
  surrogate_shaped (constraint_model self) ->
  primary_shaped_wg self x ->
  calc_gradient_of_P x (constraint_model self) (beta self) mp
    (lengthscale self) = Ok None /\
  _compute_acq_withGradients self x = Raise TypeError.
Proof.
  intros Hd Hmp Hcm Hshape.
  split; [now apply calc_gradient_of_P_no_columns |].
  unfold _compute_acq_withGradients, primary_shaped_wg in *.
  destruct (predict_withGradients (model self) x) as [[[m s] dmdx] dsdx].
  destruct (get_quantiles (jitter self) (get_fmin (model self)) m s)
    as [[phi Phi] u].
  destruct Hshape as (Hs & Hphi & HPhi & Hu & Hdm & Hds).
  unfold arr_add, arr_sub, arr_mul.
  do 3 run_cols (nrows x).
  run_mat_col (nrows x) (ncols x).
  run_col_mat (nrows x) (ncols x).
  run_same (nrows x) (ncols x).
  rewrite Hmp. cbn [getattr rbind].
  pose proof (calc_P_shape x (constraint_model self) (beta self) mp Hcm) as Sp.
  destruct (calc_P x (constraint_model self) (beta self) mp) as [mean prob].
  cbn [snd] in Sp.
  run_cols (nrows x).
  rewrite calc_gradient_of_P_no_columns by exact Hd. cbn [rbind].
  run_mat_col (nrows x) (ncols x).
  reflexivity.
Qed.

End GradientMore.

Lemma calc_gradient_of_P_informs_first_column_only_witness :
  exists g,
    calc_gradient_of_P (H0 := sample_world) (row [0; 0])
      (Some (sample_surrogate 2)) 1 0 1000 = Ok (Some g) /\
    shape g = (1%nat, 2%nat).
Proof.
  destruct (calc_gradient_of_P_informs_first_column_only (H0 := sample_world)
              (row [0; 0]) (Some (sample_surrogate 2)) None 1 0 1000 1 0 1000)
    as (g & g' & E & _ & Hs & _).
  - cbn. lia.
  - apply sample_surrogate_shaped.
  - intros m points Hm. discriminate.
  - exists g. split; [exact E | exact Hs].
Defined.

Lemma no_columns_gradient_is_None_and_TypeError_witness :
  _compute_acq_withGradients (H0 := sample_world)
    (sample_self None 0.025 0 0.03) (row (F := R) []) = Raise TypeError.
Proof.
  apply (no_columns_gradient_is_None_and_TypeError (H0 := sample_world)
           (sample_self None 0.025 0 0.03) (row []) 0).
  - reflexivity.
  - reflexivity.
  - intros m points Hm. discriminate.
  - cbn. repeat split.
Defined.

(** ** The probability transform and [calc_P] *)

Lemma inv_sigmoid_bounds (m midpoint beta : R) :
  0 < inv_sigmoid m midpoint beta < 1.
Proof.
  rewrite inv_sigmoid_unfold.
  pose proof (exp_pos ((m - midpoint) / beta)) as He. split.
  - apply Rdiv_lt_0_compat; lra.
  - apply Rmult_lt_reg_r with (1 + exp ((m - midpoint) / beta)); [lra |].
    unfold Rdiv. rewrite Rmult_assoc, Rinv_l by lra. lra.
Qed.

Section RoundedHalfPlane.
Variables rnd fexp : R -> R.
Hypothesis Hrnd : rounding rnd.
Hypothesis Hexp : exponential fexp.

Lemma rounded_inv_sigmoid_half_plane (m midpoint beta : R) :
  0 < beta ->
  (m <= midpoint ->
   1 / 2 <= inv_sigmoid (H := rounded_Float64 rnd fexp) m midpoint beta) /\
  (midpoint <= m ->
   inv_sigmoid (H := rounded_Float64 rnd fexp) m midpoint beta <= 1 / 2).
Proof.
  intros Hb.
  rewrite <- (rounded_inv_sigmoid_midpoint rnd fexp Hrnd Hexp midpoint beta).
  split; intros Hm; now apply rounded_inv_sigmoid_antitone.
Qed.

Lemma rounded_inv_sigmoid_sharper (m midpoint beta1 beta2 : R) :
  0 < beta1 -> beta1 <= beta2 ->
  (midpoint <= m ->
   inv_sigmoid (H := rounded_Float64 rnd fexp) m midpoint beta1
   <= inv_sigmoid (H := rounded_Float64 rnd fexp) m midpoint beta2) /\
  (m <= midpoint ->
   inv_sigmoid (H := rounded_Float64 rnd fexp) m midpoint beta2
   <= inv_sigmoid (H := rounded_Float64 rnd fexp) m midpoint beta1).
Proof.
  intros H1 H12.
  assert (Hi : / beta2 <= / beta1) by (apply Rinv_le_contravar; lra).
  pose proof (Rinv_0_lt_compat beta1 H1) as Hp1.
  assert (Hp2 : 0 < / beta2) by (apply Rinv_0_lt_compat; lra).
  rewrite !(rounded_inv_sigmoid_unfold rnd fexp Hrnd).
  split; intros Hm; apply (rounded_quotient_antitone rnd fexp Hrnd Hexp);
    apply rnd_monotone; try exact Hrnd; unfold Rdiv.
  - assert (0 <= rnd (m - midpoint))
      by (apply (rnd_nonneg rnd Hrnd); lra).
    nra.
  - assert (rnd (m - midpoint) <= 0).
    { rewrite <- (rnd_0 rnd Hrnd). apply rnd_monotone; [exact Hrnd | lra]. }
    nra.
Qed.

End RoundedHalfPlane.

(** X3.  In rounded arithmetic, for beta > 0, a mean at or below the
    midpoint gets a probability of at least one half and a mean at or above
    it a probability of at most one half: the probability exceeds one half
    only for means below the midpoint, and is less only for means above. *)
Theorem inv_sigmoid_half_plane (rnd fexp : R -> R) (midpoint beta : R) :
  rounding rnd -> exponential fexp -> 0 < beta ->
  let p := fun m =>
    inv_sigmoid (H := rounded_Float64 rnd fexp) m midpoint beta in
  (forall m, m <= midpoint -> 0.5 <= p m) /\
  (forall m, midpoint <= m -> p m <= 0.5) /\
  (forall m, 0.5 < p m -> m < midpoint) /\
  (forall m, p m < 0.5 -> midpoint < m).
Proof.
  intros Hrnd Hexp Hb p. unfold p.
  assert (Hlo : forall m, m <= midpoint ->
            0.5 <= inv_sigmoid (H := rounded_Float64 rnd fexp) m midpoint beta).
  { intros m Hm.
    pose proof (proj1 (rounded_inv_sigmoid_half_plane rnd fexp Hrnd Hexp
                         m midpoint beta Hb) Hm). lra. }
  assert (Hhi : forall m, midpoint <= m ->
            inv_sigmoid (H := rounded_Float64 rnd fexp) m midpoint beta <= 0.5).
  { intros m Hm.
    pose proof (proj2 (rounded_inv_sigmoid_half_plane rnd fexp Hrnd Hexp
                         m midpoint beta Hb) Hm). lra. }
  split; [exact Hlo |]. split; [exact Hhi |]. split.
  - intros m Hp. apply Rnot_le_lt. intros Hm. specialize (Hhi m Hm). lra.
  - intros m Hp. apply Rnot_le_lt. intros Hm. specialize (Hlo m Hm). lra.
Qed.

Lemma inv_sigmoid_half_plane_witness :
  0.5 <= inv_sigmoid (-1) 0 0.025 /\ inv_sigmoid 1 0 0.025 <= 0.5.
Proof.
  assert (Hb : 0 < 0.025) by lra.
  destruct (inv_sigmoid_half_plane (fun x => x) exp 0 0.025
              rounding_id exponential_exp Hb) as (Hlo & Hhi & _).
  split; [apply Hlo; lra | apply Hhi; lra].
Defined.

(** X4.  In rounded arithmetic a smaller beta never gives a flatter
    transition: for two scales 0 < beta1 <= beta2, the probability with
    beta1 is at most that with beta2 for a mean at or above the midpoint,
    and at least that with beta2 for a mean at or below it. *)
Theorem inv_sigmoid_sharper_with_smaller_beta
        (rnd fexp : R -> R) (midpoint beta1 beta2 m : R) :
  rounding rnd -> exponential fexp -> 0 < beta1 -> beta1 <= beta2 ->
  (midpoint <= m ->
   inv_sigmoid (H := rounded_Float64 rnd fexp) m midpoint beta1
   <= inv_sigmoid (H := rounded_Float64 rnd fexp) m midpoint beta2) /\
  (m <= midpoint ->
   inv_sigmoid (H := rounded_Float64 rnd fexp) m midpoint beta2
   <= inv_sigmoid (H := rounded_Float64 rnd fexp) m midpoint beta1).
Proof.
  intros Hrnd Hexp H1 H12. now apply rounded_inv_sigmoid_sharper.
Qed.

Lemma inv_sigmoid_sharper_with_smaller_beta_witness :
  inv_sigmoid 0.01 0 0.025 <= inv_sigmoid 0.01 0 0.2.
Proof.
  apply (inv_sigmoid_sharper_with_smaller_beta (fun x => x) exp 0 0.025 0.2
           0.01 rounding_id exponential_exp); lra.
Defined.

Section ProbabilityRange.
Context `{World R}.

Lemma probability_range (x : ndarray R) (cm : option (GPRegression R))
      (beta mp : R) (r : nat) :
  0 < probability x cm beta mp r <= 1.
Proof.
  unfold probability. destruct cm as [m |].
  - change (0 < inv_sigmoid (get (fst (predict_noiseless m x)) r 0) mp beta <= 1).
    pose proof (inv_sigmoid_bounds
                  (get (fst (predict_noiseless m x)) r 0) mp beta). lra.
  - cbn. lra.
Qed.

(** X5.  In rounded arithmetic, with a surrogate and beta > 0, [calc_P]
    returns one probability per mean, each in [0, 1]; it is at least one
    half where the mean is at or below the midpoint and at most one half
    where it is at or above; and of two means the lower never gets the
    lower probability. *)
Theorem calc_P_probabilities_follow_the_means
        (rnd fexp : R -> R)
        (points : ndarray R) (m : GPRegression R) (beta midpoint : R) :
  rounding rnd -> exponential fexp -> 0 < beta ->
  let '(mean, prob) :=
    calc_P (H := rounded_Float64 rnd fexp) points (Some m) beta midpoint in
  shape prob = shape mean /\
  (forall r c, 0 <= get prob r c <= 1 /\
               (get mean r c <= midpoint -> 0.5 <= get prob r c) /\
               (midpoint <= get mean r c -> get prob r c <= 0.5)) /\
  (forall r c r' c', get mean r c <= get mean r' c' ->
                     get prob r' c' <= get prob r c).
Proof.
  intros Hrnd Hexp Hb. cbn [calc_P fst].
  split; [reflexivity |]. split.
  - intros r c. cbn [get arr_map].
    destruct (inv_sigmoid_half_plane rnd fexp midpoint beta Hrnd Hexp Hb)
      as (Hlo & Hhi & _).
    split; [now apply rounded_inv_sigmoid_range |].
    split; [apply Hlo | apply Hhi].
  - intros r c r' c' Hle. cbn [get arr_map].
    now apply rounded_inv_sigmoid_antitone.
Qed.

(** X6.  For beta > 0 the feasibility factor only damps: each value
    [_compute_acq] returns lies between 0 and the Expected Improvement of
    its row, on the side of the Expected Improvement's sign. *)
Theorem _compute_acq_is_damped_EI
        (self : AcquisitionEI_DFT R) (x : ndarray R) (mp : R) :
  0 < beta self ->
  midpoint self = Some mp ->
  surrogate_shaped (constraint_model self) ->
  primary_shaped self x ->
  exists acq,
    _compute_acq self x = Ok acq /\
    forall r, (r < nrows x)%nat ->
      (0 <= EI self x r -> 0 <= get acq r 0 <= EI self x r) /\
      (EI self x r <= 0 -> EI self x r <= get acq r 0 <= 0).
Proof.
  intros _ Hmp Hcm Hshape.
  destruct (_compute_acq_returns self x mp Hmp Hcm Hshape)
    as (acq & E & _ & Hval).
  exists acq. split; [exact E |].
  intros r Hr. rewrite (Hval r Hr).
  pose proof (probability_range x (constraint_model self) (beta self) mp r)
    as Hp.
  cbn [f_mul R_Float64].
  set (e := EI self x r) in *.
  set (p := probability x (constraint_model self) (beta self) mp r) in *.
  split; intros Hs; split; nra.
Qed.

(** X7.  Without a surrogate, on a batch with at least one column and with a
    lengthscale that is not zero, [_compute_acq_withGradients] returns the
    Expected Improvement as value, and the first column of its gradient is
    the gradient of the Expected Improvement. *)
Theorem no_surrogate_gradient_is_EI_gradient
        (self : AcquisitionEI_DFT R) (x : ndarray R) (mp : R) :
  constraint_model self = None ->
  midpoint self = Some mp ->
  lengthscale self <> 0 ->
  (0 < ncols x)%nat ->
  primary_shaped_wg self x ->
  exists f_acqu df_acqu,
    _compute_acq_withGradients self x = Ok (f_acqu, df_acqu) /\
    shape f_acqu = (nrows x, 1%nat) /\ shape df_acqu = shape x /\
    forall r, (r < nrows x)%nat ->
      get f_acqu r 0 = EI_wg self x r /\
      get df_acqu r 0 = d_EI self x r 0.
Proof.
  intros Hnone Hmp Hls Hd Hshape.
  assert (Hcm : surrogate_shaped (constraint_model self)).
  { rewrite Hnone. intros m points Hm. discriminate. }
  destruct (_compute_acq_withGradients_returns self x mp Hmp Hd Hcm Hshape)
    as (f_acqu & df_acqu & g & E & Eg & Hsf & Hsd & Hval).
  destruct (calc_gradient_of_P_first_dimension_only x (constraint_model self)
              (beta self) mp (lengthscale self) Hd Hcm)
    as (g' & Eg' & _ & Hcol & _).
  rewrite Eg in Eg'. injection Eg' as <-.
  exists f_acqu, df_acqu.
  split; [exact E |]. split; [exact Hsf |]. split; [exact Hsd |].
  intros r Hr. destruct (Hval r Hr) as [Hf Hdf]. split.
  - rewrite Hf, Hnone. cbn. ring.
  - rewrite (Hdf 0%nat Hd), (Hcol r Hr).
    rewrite Hnone. unfold central_difference, probability. cbn.
    unfold Rdiv. ring.
Qed.

End ProbabilityRange.

Lemma calc_P_probabilities_follow_the_means_witness :
  0 <= get (snd (calc_P (H0 := sample_world) (row [0; 0])
                   (Some (sample_surrogate 2)) 0.025 0)) 0 0 <= 1.
Proof.
  assert (Hb : 0 < 0.025) by lra.
  pose proof (@calc_P_probabilities_follow_the_means sample_world
                (fun x => x) exp (row [0; 0]) (sample_surrogate 2) 0.025 0
                rounding_id exponential_exp Hb) as Hp.
  change (calc_P (H := rounded_Float64 (fun x => x) exp) (H0 := sample_world)
            (row [0; 0]) (Some (sample_surrogate 2)) 0.025 0)
    with (calc_P (H0 := sample_world) (row [0; 0])
            (Some (sample_surrogate 2)) 0.025 0) in Hp.
  destruct (calc_P (H0 := sample_world) (row [0; 0])
              (Some (sample_surrogate 2)) 0.025 0) as [mean prob].
  destruct Hp as (_ & Hall & _).
  apply Hall.
Defined.

Lemma _compute_acq_is_damped_EI_witness :
  exists acq,
    _compute_acq (H0 := sample_world)
      (sample_self (Some (sample_surrogate 2)) 0.025 0 0.03) (row [0; 0])
    = Ok acq.
Proof.
  destruct (@_compute_acq_is_damped_EI sample_world
              (sample_self (Some (sample_surrogate 2)) 0.025 0 0.03)
              (row [0; 0]) 0)
    as (acq & E & _).
  - cbn. lra.
  - reflexivity.
  - apply sample_surrogate_shaped.
  - cbn. repeat split.
  - exists acq. exact E.
Defined.

Lemma no_surrogate_gradient_is_EI_gradient_witness :
  exists f_acqu df_acqu,
    _compute_acq_withGradients (H0 := sample_world)
      (sample_self None 0.025 0 0.03) (row [0; 0]) = Ok (f_acqu, df_acqu) /\
    shape df_acqu = (1%nat, 2%nat).
Proof.
  destruct (@no_surrogate_gradient_is_EI_gradient sample_world
              (sample_self None 0.025 0 0.03) (row [0; 0]) 0
              eq_refl eq_refl)
    as (f & df & E & _ & Hs & _).
  - cbn. lra.
  - cbn. lia.
  - cbn. repeat split.
  - exists f, df. split; [exact E | exact Hs].
Defined.

(** ** The two evaluations together *)

Section Evaluations.
Context {F : Type} `{Float64 F} `{World F}.

(** X8.  When [predict] and [predict_withGradients] of the primary model
    agree on the batch, the value returned by [_compute_acq_withGradients]
    is the one [_compute_acq] returns. *)
Theorem both_evaluations_return_the_same_value
        (self : AcquisitionEI_DFT F) (x : ndarray F) (mp : F) :
  predictions_agree (model self) x ->
  midpoint self = Some mp ->
  (0 < ncols x)%nat ->
  surrogate_shaped (constraint_model self) ->
  primary_shaped_wg self x ->
  exists acq f_acqu df_acqu,
    _compute_acq self x = Ok acq /\
    _compute_acq_withGradients self x = Ok (f_acqu, df_acqu) /\
    shape f_acqu = shape acq /\
    forall r, (r < nrows x)%nat -> get f_acqu r 0 = get acq r 0.
Proof.
  intros Hagree Hmp Hd Hcm Hshape.
  assert (Hshape' : primary_shaped self x /\
                    forall r, EI_wg self x r = EI self x r).
  { unfold primary_shaped, primary_shaped_wg, EI, EI_wg, predictions_agree in *.
    destruct (predict_withGradients (model self) x) as [[[m s] dmdx] dsdx].
    cbn [fst] in Hagree. rewrite <- Hagree.
    destruct (get_quantiles (jitter self) (get_fmin (model self)) m s)
      as [[phi Phi] u].
    destruct Hshape as (Hs & Hphi & HPhi & Hu & _). repeat split; assumption. }
  destruct Hshape' as [Hshape' HEI].
  destruct (_compute_acq_returns self x mp Hmp Hcm Hshape')
    as (acq & E & Hsa & Hval).
  destruct (_compute_acq_withGradients_returns self x mp Hmp Hd Hcm Hshape)
    as (f_acqu & df_acqu & g & E' & _ & Hsf & _ & Hval').
  exists acq, f_acqu, df_acqu.
  split; [exact E |]. split; [exact E' |]. split; [now rewrite Hsf, Hsa |].
  intros r Hr. destruct (Hval' r Hr) as [Hf _].
  rewrite Hf, (Hval r Hr), HEI. reflexivity.
Qed.

(** X9.  An instance built from a dictionary without 'p_midpoint' has no
    [midpoint] attribute: both evaluations raise [AttributeError] on every
    batch the primary model can answer. *)
Theorem without_p_midpoint_every_evaluation_raises
        (m : PrimaryModel F) (j : F) (p : params F)
        (log log' : list (call F)) (self : AcquisitionEI_DFT F)
        (x : ndarray F) :
  p_midpoint p = None ->
  __init__ m j (Some p) log = (Ok self, log') ->
  (primary_shaped self x -> _compute_acq self x = Raise AttributeError) /\
  (primary_shaped_wg self x ->
   _compute_acq_withGradients self x = Raise AttributeError).
Proof.
  intros Hp E.
  pose proof (__init___returns m j (Some p) log log' self E) as [_ Hmid].
  cbv zeta in Hmid. rewrite Hp in Hmid. destruct Hmid as [Hmid _].
  split; intros Hshape.
  - unfold _compute_acq, primary_shaped in *.
    destruct (predict (model self) x) as [mm s].
    destruct (get_quantiles (jitter self) (get_fmin (model self)) mm s)
      as [[phi Phi] u].
    destruct Hshape as (Hs & Hphi & HPhi & Hu).
    unfold arr_add, arr_mul.
    do 3 run_cols (nrows x).
    rewrite Hmid. reflexivity.
  - unfold _compute_acq_withGradients, primary_shaped_wg in *.
    destruct (predict_withGradients (model self) x) as [[[mm s] dmdx] dsdx].
    destruct (get_quantiles (jitter self) (get_fmin (model self)) mm s)
      as [[phi Phi] u].
    destruct Hshape as (Hs & Hphi & HPhi & Hu & Hdm & Hds).
    unfold arr_add, arr_sub, arr_mul.
    do 3 run_cols (nrows x).
    run_mat_col (nrows x) (ncols x).
    run_col_mat (nrows x) (ncols x).
    run_same (nrows x) (ncols x).
    rewrite Hmid. reflexivity.
Qed.

End Evaluations.

Lemma both_evaluations_return_the_same_value_witness :
  exists acq f_acqu df_acqu,
    _compute_acq (H0 := sample_world)
      (sample_self (Some (sample_surrogate 2)) 0.025 0 0.03) (row [0; 0])
    = Ok acq /\
    _compute_acq_withGradients (H0 := sample_world)
      (sample_self (Some (sample_surrogate 2)) 0.025 0 0.03) (row [0; 0])
    = Ok (f_acqu, df_acqu) /\
    get f_acqu 0 0 = get acq 0 0.
Proof.
  destruct (both_evaluations_return_the_same_value (H0 := sample_world)
              (sample_self (Some (sample_surrogate 2)) 0.025 0 0.03)
              (row [0; 0]) 0)
    as (acq & f & df & E & E' & _ & Hv).
  - reflexivity.
  - reflexivity.
  - cbn. lia.
  - apply sample_surrogate_shaped.
  - cbn. repeat split.
  - exists acq, f, df. split; [exact E |]. split; [exact E' |].
    apply Hv. cbn. lia.
Defined.

Lemma without_p_midpoint_every_evaluation_raises_witness :
  exists self,
    __init__ (H0 := sample_world) sample_primary 0.01
      (Some params_without_midpoint) [] = (Ok self, []) /\
    _compute_acq (H0 := sample_world) self (row [0; 0]) = Raise AttributeError.
Proof.
  eexists. split; [reflexivity |].
  eapply (without_p_midpoint_every_evaluation_raises (F := R)
            (H0 := sample_world) sample_primary 0.01 params_without_midpoint
            [] []).
  - reflexivity.
  - reflexivity.
  - cbn. repeat split.
Defined.

(** ** The constructor, further *)

Section ConstructorMore.
Context {F : Type} `{Float64 F} `{World F}.

(** X10.  With three input variables and the target 'dGmix (ev/f.u.)' or
    'Yellowness' the constructor returns no instance: every such call ends
    in an exception.  Where it has an auxiliary model and a midpoint it
    reaches [plot_P], which cannot return, since it unpacks the pair
    [calc_P] returns into three names. *)
Theorem constructor_never_returns_when_it_plots
        (m : PrimaryModel F) (j : F) (p : params F) (vars : list string)
        (log : list (call F)) :
  df_input_var p = Some (Some vars) -> List.length vars = 3%nat ->
  (df_target_var p = Some (Some "dGmix (ev/f.u.)"%string) \/
   df_target_var p = Some (Some "Yellowness"%string)) ->
  exists e log', __init__ m j (Some p) log = (Raise e, log').
Proof.
  intros Hin Hlen Ht.
  destruct (__init__ m j (Some p) log) as [[self | e] log'] eqn:E;
    [exfalso | now exists e, log'].
  unfold __init__ in E.
  unfold bind at 1 in E.
  match type of E with
  | context [match ?c log with _ => _ end] =>
      destruct (c log) as [[[cm data] | e] log1]
  end; [| discriminate].
  destruct cm as [cm |]; [| discriminate].
  unfold bind at 1 in E. cbn [lift getattr] in E.
  rewrite Hin in E.
  destruct (p_midpoint p) as [v |];
    unfold bind at 1 in E; cbn [lift] in E; rewrite Hlen in E;
    cbn [Nat.eqb] in E;
    destruct Ht as [Ht | Ht]; rewrite Ht in E; cbn in E; discriminate.
Qed.

End ConstructorMore.

Lemma constructor_never_returns_when_it_plots_witness :
  exists e log',
    __init__ (H0 := sample_world) sample_primary 0.01
      (Some {| df_data := None;
               df_target_var := Some (Some "Yellowness"%string);
               df_input_var := Some (Some ["CsPbI"; "MAPbI"; "FAPbI"]%string);
               gp_lengthscale := None; gp_variance := None;
               p_beta := Some 0.025; p_midpoint := Some 0;
               df_model := Some (Some (sample_surrogate 3)) |}) []
    = (Raise e, log').
Proof.
  match goal with
  | |- exists e log', __init__ _ _ (Some ?q) _ = _ => set (p := q)
  end.
  apply (constructor_never_returns_when_it_plots (H0 := sample_world)
           sample_primary 0.01 p ["CsPbI"; "MAPbI"; "FAPbI"]%string []
           eq_refl eq_refl (or_intror eq_refl)).
Defined.

Section ConstructorRest.
Context {F : Type} `{Float64 F} `{World F}.

(** X11.  [fromConfig] does not hand its [ei_dft_params] to the
    constructor, so the default dictionary (with 'df_model': None) is used:
    whatever dictionary is passed, it raises [AttributeError] and makes no
    call into GPy. *)
Theorem fromConfig_always_raises
        (m : PrimaryModel F) (j : F) (ei_dft_params : option (params F))
        (log : list (call F)) :
  fromConfig m j ei_dft_params log = (Raise AttributeError, log) /\
  fromConfig m j ei_dft_params log = __init__ m j None log.
Proof.
  split; [| reflexivity].
  unfold fromConfig. apply (__init___None_model m j None log).
  left. reflexivity.
Qed.

(** X12.  An instance the constructor returns keeps the target and the
    input variables of the dictionary, holds a list of input variables, and
    has as [lengthscale] and [variance] the values read back from the kernel
    of its auxiliary model, not those of 'gp_lengthscale' and 'gp_variance';
    with 'p_midpoint' in the dictionary, [midpoint] is that value and [beta]
    is 'p_beta', or 0.025 without that key. *)
Theorem constructor_returned_instance
        (m : PrimaryModel F) (j : F) (p : params F)
        (log log' : list (call F)) (self : AcquisitionEI_DFT F) :
  __init__ m j (Some p) log = (Ok self, log') ->
  model self = m /\ jitter self = j /\
  data_fusion_target_variable self
  = match df_target_var p with Some v => v | None => None end /\
  (exists vars, data_fusion_input_variables self = Some vars /\
                df_input_var p = Some (Some vars)) /\
  (exists cm, constraint_model self = Some cm /\
              lengthscale self = k_lengthscale (kern cm) /\
              variance self = k_variance (kern cm)) /\
  (forall v, p_midpoint p = Some v ->
             midpoint self = Some v /\
             beta self = match p_beta p with Some b => b | None => lit 0.025 end).
Proof.
  intros E. unfold __init__ in E.
  unfold bind at 1 in E.
  match type of E with
  | context [match ?c log with _ => _ end] =>
      destruct (c log) as [[[cm data] | e] log1]
  end; [| discriminate].
  destruct cm as [cm |]; [| discriminate].
  unfold bind at 1 in E. cbn [lift getattr] in E.
  destruct (df_input_var p) as [[vars |] |];
    try (destruct (p_midpoint p); unfold bind at 1 in E; discriminate).
  destruct (p_midpoint p) as [v |];
    apply bind_inv in E as (n & log2 & _ & E);
    apply bind_inv in E as (u & log3 & _ & E);
    unfold ret in E; injection E as <- <-; cbn;
    (split; [reflexivity |]; split; [reflexivity |]; split; [reflexivity |];
     split; [exists vars; split; reflexivity |];
     split; [exists cm; repeat split |];
     intros v' Hv'; try discriminate; injection Hv' as <-;
     split; reflexivity).
Qed.

(** X13.  With 'df_model' in the dictionary the constructor does not run
    [GP_model]: no kernel and no regression is created and nothing is
    bounded or fitted (the log of these calls is left as it was).  It
    ignores 'df_data', 'gp_lengthscale' and 'gp_variance': two dictionaries
    that agree on the other keys give the same result, and a returned
    instance holds that model and no data. *)
Theorem constructor_with_model_ignores_data
        (m : PrimaryModel F) (j : F) (p p' : params F)
        (cm : option (GPRegression F)) (log : list (call F)) :
  df_model p = Some cm -> df_model p' = Some cm ->
  df_target_var p = df_target_var p' ->
  df_input_var p = df_input_var p' ->
  p_beta p = p_beta p' -> p_midpoint p = p_midpoint p' ->
  __init__ m j (Some p) log = __init__ m j (Some p') log /\
  snd (__init__ m j (Some p) log) = log /\
  (forall self log', __init__ m j (Some p) log = (Ok self, log') ->
                     constraint_model self = cm /\
                     data_fusion_data self = None).
Proof.
  intros Hm Hm' Ht Hi Hb Hmid.
  split; [| split].
  - unfold __init__. rewrite Hm, Hm', Ht, Hi, Hb, Hmid. reflexivity.
  - unfold __init__. rewrite Hm.
    unfold bind at 1. unfold ret at 1.
    destruct cm as [c |]; [| reflexivity].
    unfold bind at 1. cbn [lift getattr].
    destruct (p_midpoint p) as [v |];
      (unfold bind at 1; cbn [lift];
       destruct (df_input_var p) as [[vars |] |]; try reflexivity;
       destruct (List.length vars =? 3); [| reflexivity];
       destruct (str_is match df_target_var p with
                        | Some v0 => v0
                        | None => None
                        end "dGmix (ev/f.u.)");
       [reflexivity |];
       destruct (str_is match df_target_var p with
                        | Some v0 => v0
                        | None => None
                        end "Yellowness"); reflexivity).
  - intros self log' E. unfold __init__ in E. rewrite Hm in E.
    unfold bind at 1 in E. unfold ret at 1 in E.
    destruct cm as [c |]; [| discriminate].
    unfold bind at 1 in E. cbn [lift getattr] in E.
    destruct (p_midpoint p) as [v |];
      apply bind_inv in E as (n & log2 & _ & E);
      apply bind_inv in E as (u & log3 & _ & E);
      unfold ret in E; injection E as <- <-; split; reflexivity.
Qed.

End ConstructorRest.

Lemma constructor_returned_instance_witness :
  exists self,
    __init__ (H0 := sample_world) sample_primary 0.01
      (Some params_without_midpoint) [] = (Ok self, []) /\
    lengthscale self = 1000 /\ variance self = 2.
Proof.
  eexists. split; [reflexivity |].
  destruct (constructor_returned_instance (H0 := sample_world)
              sample_primary 0.01 params_without_midpoint [] [] _ eq_refl)
    as (_ & _ & _ & _ & (cm & Hcm & Hls & Hvar) & _).
  cbn in Hcm. injection Hcm as <-. split; [exact Hls | exact Hvar].
Defined.

Lemma constructor_with_model_ignores_data_witness :
  __init__ (H0 := sample_world) sample_primary 0.01
    (Some params_without_midpoint) []
  = __init__ (H0 := sample_world) sample_primary 0.01
      (Some {| df_data := Some (Some sample_frame);
               df_target_var := df_target_var params_without_midpoint;
               df_input_var := df_input_var params_without_midpoint;
               gp_lengthscale := Some (Some 7); gp_variance := Some None;
               p_beta := Some 0.5; p_midpoint := None;
               df_model := Some (Some (sample_surrogate 2)) |}) [].
Proof.
  apply (constructor_with_model_ignores_data (H0 := sample_world)
           sample_primary 0.01 params_without_midpoint _
           (Some (sample_surrogate 2)) []); reflexivity.
Defined.

(** ** [GP_model]: what makes it raise *)

Section BuilderErrors.
Context {F : Type} `{Float64 F} `{World F}.

Lemma df_values_labels (data : DataFrame F) (labels : list string) :
  df_values data (map Some labels)
  = if forallb (has_column data) labels
    then Ok (mk_array (df_nrows data) (List.length (map Some labels))
               (fun r j => df_cell data r
                             (match nth j (map Some labels) None with
                              | Some c => c
                              | None => EmptyString
                              end)))
    else Raise KeyError.
Proof.
  unfold df_values.
  assert (E : forallb (fun l => match l with
                                | Some c => has_column data c
                                | None => false
                                end) (map Some labels)
              = forallb (has_column data) labels).
  { induction labels as [| c l IH]; cbn; [reflexivity | now rewrite IH]. }
  now rewrite E.
Qed.

Lemma entries_no_columns (a : ndarray F) : ncols a = 0%nat -> entries a = [].
Proof.
  intros Hd. unfold entries. rewrite Hd. cbn.
  induction (seq 0 (nrows a)) as [| r l IH]; [reflexivity | exact IH].
Qed.

(** X14.  On a frame that is not empty, [GP_model] raises [KeyError] before
    any call into GPy when the input variables are [None], when one of them
    is not a column of the frame, or when the target is [None] or not a
    column. *)
Theorem GP_model_missing_column_raises_KeyError
        (data : DataFrame F) (target : option string)
        (ls var nv : option F) (inputs : option (list string))
        (log : list (call F)) :
  df_empty data = false ->
  (inputs = None \/
   (exists vars, inputs = Some vars /\
                 forallb (has_column data) vars = false) \/
   target = None \/
   (exists t, target = Some t /\ has_column data t = false)) ->
  GP_model (Some data) target ls var nv inputs log = (Raise KeyError, log).
Proof.
  intros He Hbad. unfold GP_model. rewrite He.
  destruct inputs as [vars |]; [| reflexivity].
  rewrite df_values_labels.
  destruct (forallb (has_column data) vars) eqn:Ev.
  - assert (Et : df_values data [target] = Raise KeyError).
    { destruct Hbad as [Hb | [(vs & Hvs & Hf) | [-> | (t & -> & Ht)]]].
      - discriminate.
      - injection Hvs as <-. congruence.
      - reflexivity.
      - unfold df_values. cbn. now rewrite Ht. }
    unfold bind at 1. unfold lift at 1.
    unfold bind at 1. unfold lift at 1. now rewrite Et.
  - reflexivity.
Qed.

(** X15.  With [variance=None] on a frame that is not empty [GP_model]
    never returns a model.  The kernel and the regression are created with
    the estimated variance; when the interval of the noise variance is
    proper the noise is bounded and [variance*1e-12] raises [TypeError];
    otherwise the bound on the noise raises [AssertionError].  The kernel
    variance is not bounded and the model is never optimized. *)
Theorem GP_model_variance_None_raises_TypeError
        (data : DataFrame F) (target : string) (inputs : list string)
        (lengthscale noise_variance : option F) :
  df_empty data = false -> frame_has data target inputs -> inputs <> [] ->
  exists X Y Ymax kernel_ls noise_var,
    df_values data [Some target] = Ok Y /\
    arr_max Y = Ok Ymax /\
    noise_var
    = corrected_value noise_variance (lit 0.01 * arr_var Y)%fl (lit 1e-12) /\
    let setup :=
      [GPy_kern_Matern52 (ncols X) kernel_ls
         (if f_eq (arr_var Y) (lit 0) then lit 1 else arr_var Y);
       GPy_models_GPRegression X Y noise_var] in
    GP_model (Some data) (Some target) lengthscale None noise_variance
      (Some inputs) []
    = if f_lt (lit 1e-12) (noise_var + Ymax * Ymax)%fl
      then (Raise TypeError,
            setup ++ [Gaussian_noise_constrain_bounded (lit 1e-12)
                        (noise_var + Ymax * Ymax)%fl])
      else (Raise AssertionError, setup).
Proof.
  intros He Hf Hne.
  destruct (frame_arrays data target inputs He Hf Hne)
    as (X & Y & x0 & xs & y0 & ys & EX & EY & Ex & Ey).
  pose proof (GP_model_runs data (Some target) inputs lengthscale None
                noise_variance X Y _ _ _ He EX EY
                (reduce_cons f_max Y y0 ys Ey)
                (reduce_cons f_max X x0 xs Ex)
                (reduce_cons f_min X x0 xs Ex)) as Hrun.
  cbv zeta in Hrun.
  exists X, Y, (fold_left f_max ys y0). do 2 eexists.
  split; [exact EY |]. split; [exact (reduce_cons f_max Y y0 ys Ey) |].
  split; [reflexivity |]. cbv zeta.
  match type of Hrun with
  | if ?c then _ else _ => destruct c
  end; exact Hrun.
Qed.

(** X16.  With an empty list of input variables the design matrix has no
    entries: when the lengthscale is [None] or not positive, its estimate
    [X.max() - X.min()] raises [ValueError] before any call into GPy. *)
Theorem GP_model_without_inputs_raises_ValueError
        (data : DataFrame F) (target : string)
        (lengthscale variance noise_variance : option F)
        (log : list (call F)) :
  df_empty data = false -> has_column data target = true ->
  (lengthscale = None \/
   exists v, lengthscale = Some v /\ f_le v (lit 0) = true) ->
  GP_model (Some data) (Some target) lengthscale variance noise_variance
    (Some []) log = (Raise ValueError, log).
Proof.
  intros He Ht Hls. unfold GP_model. rewrite He. cbv zeta.
  cbn [map]. unfold bind at 1. unfold lift at 1.
  assert (EX : df_values data [] = Ok (mk_array (df_nrows data) 0
                 (fun r j => df_cell data r
                               (match nth j [] None with
                                | Some c => c
                                | None => EmptyString
                                end)))) by reflexivity.
  rewrite EX.
  assert (EY : exists Y, df_values data [Some target] = Ok Y).
  { unfold df_values. cbn. rewrite Ht. eexists. reflexivity. }
  destruct EY as (Y & EY).
  unfold bind at 1. unfold lift at 1. rewrite EY.
  unfold bind at 1. unfold lift at 1.
  assert (Emax : arr_max (mk_array (df_nrows data) 0
                   (fun r j => df_cell data r
                                 (match nth j [] None with
                                  | Some c => c
                                  | None => EmptyString
                                  end))) = Raise ValueError).
  { unfold arr_max, reduce. now rewrite entries_no_columns. }
  rewrite Emax. cbn [rbind].
  destruct Hls as [-> | (v & -> & Hv)]; [reflexivity | now rewrite Hv].
Qed.

End BuilderErrors.

Lemma GP_model_missing_column_raises_KeyError_witness :
  GP_model (H0 := sample_world) (Some sample_frame) (Some "Yellowness"%string)
    (Some 0.03) (Some 2) None (Some ["CsPbI"; "MAPbI"]%string) []
  = (Raise KeyError, []).
Proof.
  apply (GP_model_missing_column_raises_KeyError (H0 := sample_world)).
  - reflexivity.
  - right. right. right. exists "Yellowness"%string. split; reflexivity.
Defined.

Lemma GP_model_variance_None_raises_TypeError_witness :
  fst (GP_model (H0 := sample_world) (Some sample_frame)
         (Some "dGmix (ev/f.u.)"%string) (Some 0.03) None None
         (Some ["CsPbI"; "MAPbI"]%string) [])
  = Raise TypeError.
Proof.
  destruct (GP_model_variance_None_raises_TypeError (H0 := sample_world)
              sample_frame "dGmix (ev/f.u.)" ["CsPbI"; "MAPbI"]%string
              (Some 0.03) None)
    as (X & Y & Ymax & ls & nv & EY & EYmax & Env & E).
  - reflexivity.
  - split; reflexivity.
  - discriminate.
  - injection EY as <-.
    assert (HY1 : Ymax = 1).
    { cbn in EYmax. injection EYmax as <-.
      unfold Rmax. destruct (Rle_dec (-1) 1); lra. }
    subst Ymax. cbv zeta in E. rewrite E.
    replace (f_lt (lit 1e-12) (nv + 1 * 1)%fl) with true; [reflexivity |].
    symmetry. rewrite Env. noise_interval_is_proper.
Defined.

Lemma GP_model_without_inputs_raises_ValueError_witness :
  GP_model (H0 := sample_world) (Some sample_frame)
    (Some "dGmix (ev/f.u.)"%string) None (Some 2) None (Some []) []
  = (Raise ValueError, []).
Proof.
  apply (GP_model_without_inputs_raises_ValueError (H0 := sample_world)).
  - reflexivity.
  - reflexivity.
  - left. reflexivity.
Defined.

(** ** The earlier copy *)

Section SafecopyFacts.
Context {F : Type} `{Float64 F} `{World F} `{Safecopy.GPyRBF F}.

Lemma safecopy_bind_inv {A B} (c : Safecopy.E F A) (k : A -> Safecopy.E F B)
      (log log' : list (Safecopy.event F)) (b : B) :
  Safecopy.bind c k log = (Ok b, log') ->
  exists a log1, c log = (Ok a, log1) /\ k a log1 = (Ok b, log').
Proof.
  unfold Safecopy.bind. destruct (c log) as [[a | e] log1]; [| discriminate].
  intros E. now exists a, log1.
Qed.

Lemma safecopy_GP_model_runs (data : DataFrame F) (target : option string)
      (inputs : list string) (lengthscale variance : F) (X Y : ndarray F)
      (log : list (Safecopy.event F)) :
  df_empty data = false ->
  df_values data (map Some inputs) = Ok X ->
  df_values data [target] = Ok Y ->
  let created :=
    log ++ [Safecopy.GPy_kern_RBF (ncols X) lengthscale variance;
            Safecopy.GPy_models_GPRegression X Y] in
  let run :=
    Safecopy.GP_model (Some data) target lengthscale variance (Some inputs)
      log in
  if f_lt (variance * lit 1e-6)%fl (variance * lit 1e6)%fl then
    exists m,
      run = (Ok (Some m),
             created ++ [Safecopy.rbf_variance_constrain_bounded
                           (variance * lit 1e-6)%fl (variance * lit 1e6)%fl;
                         Safecopy.optimize 500]) /\
      Safecopy.m_X m = X /\ Safecopy.m_Y m = Y /\
      Safecopy.rbf_input_dim (Safecopy.rbf m) = ncols X /\
      Safecopy.rbf_variance_bounds (Safecopy.rbf m)
      = Some ((variance * lit 1e-6)%fl, (variance * lit 1e6)%fl)
  else run = (Raise AssertionError, created).
Proof.
  intros He EX EY created run. unfold run, created, Safecopy.GP_model.
  rewrite He, EX.
  cbv beta iota zeta delta [Safecopy.bind Safecopy.lift Safecopy.ret
                            Safecopy.emit Safecopy.raise].
  rewrite EY. cbv beta iota zeta.
  destruct (f_lt (variance * lit 1e-6)%fl (variance * lit 1e6)%fl).
  - match goal with
    | |- context [Safecopy.rbf_optimum ?m 500%nat] =>
        destruct (Safecopy.rbf_optimum m 500%nat) as [ls' var']
    end.
    eexists. split.
    + rewrite <- !app_assoc. reflexivity.
    + repeat split.
  - rewrite <- !app_assoc. reflexivity.
Qed.

(** X17.  [GP_model] of the copy returns [None], without raising, exactly
    when the data are [None] or empty.  On any other frame that holds the
    columns asked for it creates an RBF kernel over the input columns with
    the lengthscale and variance as they were passed, and a regression;
    when the interval [variance*1e-6, variance*1e6] is proper it bounds the
    kernel variance to it and runs the optimizer once, with at most 500
    function evaluations; otherwise (a variance that is not positive) the
    bound raises [AssertionError] and the model is not fitted. *)
Theorem safecopy_GP_model_fits_as_given :
  (forall target ls var inputs log,
     Safecopy.GP_model None target ls var inputs log = (Ok None, log)) /\
  (forall data target ls var inputs log,
     df_empty data = true ->
     Safecopy.GP_model (Some data) target ls var inputs log = (Ok None, log)) /\
  (forall data target ls var inputs log log',
     Safecopy.GP_model data target ls var inputs log = (Ok None, log') ->
     data = None \/ exists d, data = Some d /\ df_empty d = true) /\
  (forall data target inputs ls var,
     df_empty data = false -> frame_has data target inputs ->
     exists X Y,
       df_values data (map Some inputs) = Ok X /\
       df_values data [Some target] = Ok Y /\
       ncols X = List.length inputs /\
       let run :=
         Safecopy.GP_model (Some data) (Some target) ls var (Some inputs) [] in
       let created :=
         [Safecopy.GPy_kern_RBF (ncols X) ls var;
          Safecopy.GPy_models_GPRegression X Y] in
       if f_lt (var * lit 1e-6)%fl (var * lit 1e6)%fl then
         exists m,
           run = (Ok (Some m),
                  created ++ [Safecopy.rbf_variance_constrain_bounded
                                (var * lit 1e-6)%fl (var * lit 1e6)%fl;
                              Safecopy.optimize 500]) /\
           Safecopy.m_X m = X /\ Safecopy.m_Y m = Y
       else run = (Raise AssertionError, created)).
Proof.
  split; [| split; [| split]].
  - reflexivity.
  - intros data target ls var inputs log He.
    unfold Safecopy.GP_model. now rewrite He.
  - intros data target ls var inputs log log' E.
    destruct data as [d |]; [| now left].
    right. exists d. split; [reflexivity |].
    unfold Safecopy.GP_model in E.
    destruct (df_empty d); [reflexivity | exfalso].
    cbv zeta in E.
    repeat (apply safecopy_bind_inv in E as (? & ? & _ & E)).
    destruct (Safecopy.rbf_optimum _ _) in E.
    unfold Safecopy.ret in E. discriminate.
  - intros data target inputs ls var He [Ht Hi].
    destruct (df_values_ok data inputs Hi) as (X & EX & _ & HXd).
    destruct (df_values_ok data [target]) as (Y & EY & _).
    { cbn. now rewrite Ht. }
    pose proof (safecopy_GP_model_runs data (Some target) inputs ls var X Y []
                  He EX EY) as Hrun.
    cbv zeta in Hrun. cbn [app] in Hrun.
    exists X, Y. split; [exact EX |]. split; [exact EY |].
    split; [exact HXd |]. cbv zeta.
    destruct (f_lt (var * lit 1e-6)%fl (var * lit 1e6)%fl).
    + destruct Hrun as (m & Em & HX & HY & _).
      exists m. repeat split; assumption.
    + exact Hrun.
Qed.

End SafecopyFacts.

Lemma safecopy_GP_model_fits_as_given_witness :
  exists m log,
    Safecopy.GP_model (H1 := Safecopy.sample_gpy)
      (Some sample_frame) (Some "dGmix (ev/f.u.)"%string) 0.03 2
      (Some ["CsPbI"; "MAPbI"]%string) [] = (Ok (Some m), log) /\
    List.length log = 4%nat.
Proof.
  destruct (@safecopy_GP_model_fits_as_given R _ Safecopy.sample_gpy)
    as (_ & _ & _ & Hfit).
  destruct (Hfit sample_frame "dGmix (ev/f.u.)"%string
              ["CsPbI"; "MAPbI"]%string 0.03 2)
    as (X & Y & _ & _ & _ & E).
  - reflexivity.
  - split; reflexivity.
  - cbv zeta in E. rewrite f_lt_true in E.
    + destruct E as (m & E & _). exists m. eexists.
      split; [exact E | reflexivity].
    + cbv [f_mul lit R_Float64]. lra.
Defined.

Section SafecopyGradient.
Context {F : Type} `{Float64 F} `{World F} `{Safecopy.GPyRBF F}.

Lemma safecopy_calc_P_shape (points : ndarray F)
      (cm : option (Safecopy.GPRegressionRBF F)) (beta midpoint : F) :
  Safecopy.surrogate_shaped cm ->
  shape (snd (fst (Safecopy.calc_P points cm beta midpoint)))
  = (nrows points, 1%nat).
Proof.
  intros Hcm. destruct cm as [m |]; cbn; [| reflexivity].
  specialize (Hcm m points eq_refl).
  apply shape_inv in Hcm as [Hn Hd]. unfold shape. cbn. now rewrite Hn, Hd.
Qed.

Lemma safecopy_gradient_first_dimension_only
      (x : ndarray F) (cm : option (Safecopy.GPRegressionRBF F))
      (beta midpoint lengthscale : F) :
  (0 < ncols x)%nat ->
  Safecopy.surrogate_shaped cm ->
  exists g,
    Safecopy.calc_gradient_of_P x cm beta midpoint lengthscale = Ok (Some g) /\
    shape g = shape x /\
    (forall r, (r < nrows x)%nat ->
       get g r 0
       = Safecopy.central_difference x cm beta midpoint lengthscale r 0) /\
    (forall r j, j <> 0%nat -> get g r j = get (np_empty (shape x)) r j).
Proof.
  intros Hd Hcm. unfold Safecopy.calc_gradient_of_P.
  rewrite (range_pos _ Hd). cbn [for_in].
  rewrite (get_col_ok (copy x) 0 Hd). cbn [rbind].
  rewrite (set_col_shifted x 0 _ Hd). cbn [rbind].
  rewrite (set_col_shifted x 0 _ Hd). cbn [rbind].
  set (x_l := shifted x 0 (fun v => (v - lengthscale / lit 1000)%fl)).
  set (x_u := shifted x 0 (fun v => (v + lengthscale / lit 1000)%fl)).
  pose proof (safecopy_calc_P_shape x_l cm beta midpoint Hcm) as Sl.
  pose proof (safecopy_calc_P_shape x_u cm beta midpoint Hcm) as Su.
  assert (Epl : forall r,
            get (snd (fst (Safecopy.calc_P x_l cm beta midpoint))) r 0
            = Safecopy.probability x_l cm beta midpoint r) by reflexivity.
  assert (Epu : forall r,
            get (snd (fst (Safecopy.calc_P x_u cm beta midpoint))) r 0
            = Safecopy.probability x_u cm beta midpoint r) by reflexivity.
  destruct (Safecopy.calc_P x_l cm beta midpoint) as [[ml p_l] cl].
  destruct (Safecopy.calc_P x_u cm beta midpoint) as [[mu p_u] cu].
  cbn [fst snd] in Sl, Su, Epl, Epu.
  unfold arr_sub.
  destruct (broadcast2_cols f_sub p_u p_l (nrows x) Su Sl) as (dd & E & Hs & Hg).
  rewrite E. cbn [rbind].
  apply shape_inv in Hs as [Hn Hc].
  rewrite set_col_ok;
    [| exact Hd | cbn; rewrite Hn, Hc; apply Nat.mul_1_r].
  cbn [rbind]. eexists. split; [reflexivity |].
  split; [reflexivity |]. split.
  - intros r Hr. cbn. rewrite Hc, Nat.div_1_r.
    replace (r mod 1)%nat with 0%nat by (symmetry; apply Nat.mod_1_r).
    rewrite Hg, Epl, Epu by assumption. reflexivity.
  - intros r j Hj. destruct j as [| j]; [congruence | reflexivity].
Qed.

(** X18.  [calc_gradient_of_P] of the copy has the same [return] inside its
    loop: on a batch with at least one column only the first column of the
    result is the central difference; every other column is what [np.empty]
    returned, the same for every surrogate, beta, midpoint and
    lengthscale. *)
Theorem safecopy_calc_gradient_of_P_first_column_only
        (x : ndarray F) (cm cm' : option (Safecopy.GPRegressionRBF F))
        (beta midpoint lengthscale beta' midpoint' lengthscale' : F) :
  (0 < ncols x)%nat ->
  Safecopy.surrogate_shaped cm -> Safecopy.surrogate_shaped cm' ->
  exists g g',
    Safecopy.calc_gradient_of_P x cm beta midpoint lengthscale = Ok (Some g) /\
    Safecopy.calc_gradient_of_P x cm' beta' midpoint' lengthscale'
    = Ok (Some g') /\
    shape g = shape x /\
    (forall r, (r < nrows x)%nat ->
       get g r 0
       = Safecopy.central_difference x cm beta midpoint lengthscale r 0) /\
    (forall r j, j <> 0%nat ->
       get g r j = get g' r j /\ get g r j = get (np_empty (shape x)) r j).
Proof.
  intros Hd Hcm Hcm'.
  destruct (safecopy_gradient_first_dimension_only x cm beta midpoint
              lengthscale Hd Hcm) as (g & E & Hs & Hc & Hu).
  destruct (safecopy_gradient_first_dimension_only x cm' beta' midpoint'
              lengthscale' Hd Hcm') as (g' & E' & _ & _ & Hu').
  exists g, g'. split; [exact E |]. split; [exact E' |].
  split; [exact Hs |]. split; [exact Hc |].
  intros r j Hj. split.
  - rewrite Hu, Hu' by assumption. reflexivity.
  - apply Hu, Hj.
Qed.

(** X22.  [_compute_acq_withGradients] of the copy prints the batch exactly
    when it contains a NaN, and returns in both cases: the value is EI*prob
    and the gradient is d_EI*prob + (EI*prob)*d_prob, the second summand
    built from the value already multiplied by prob. *)
Theorem safecopy_withGradients_prints_nan_and_goes_on
        (self : Safecopy.AcquisitionEI_DFT F) (x : ndarray F)
        (log : list (Safecopy.event F)) :
  (0 < ncols x)%nat ->
  Safecopy.surrogate_shaped (Safecopy.constraint_model self) ->
  primary_shaped_wg (without_surrogate self) x ->
  exists f_acqu df_acqu d_prob,
    Safecopy._compute_acq_withGradients self x log
    = (Ok (f_acqu, df_acqu),
       log ++ (if any_isnan x then [Safecopy.print_nan x] else [])) /\
    Safecopy.calc_gradient_of_P x (Safecopy.constraint_model self)
      (Safecopy.beta self) (Safecopy.midpoint self)
      (Safecopy.lengthscale self) = Ok (Some d_prob) /\
    forall r, (r < nrows x)%nat ->
      let prob := Safecopy.probability x (Safecopy.constraint_model self)
                    (Safecopy.beta self) (Safecopy.midpoint self) r in
      get f_acqu r 0 = (EI_wg (without_surrogate self) x r * prob)%fl /\
      forall c, (c < ncols x)%nat ->
        get df_acqu r c
        = (d_EI (without_surrogate self) x r c * prob
           + (EI_wg (without_surrogate self) x r * prob) * get d_prob r c)%fl.
Proof.
  intros Hd Hcm Hshape.
  unfold Safecopy._compute_acq_withGradients, EI_wg, d_EI,
    primary_shaped_wg in *.
  cbn [model jitter without_surrogate] in *.
  destruct (predict_withGradients (Safecopy.model self) x)
    as [[[m s] dmdx] dsdx].
  destruct (get_quantiles (Safecopy.jitter self)
              (get_fmin (Safecopy.model self)) m s) as [[phi Phi] u].
  destruct Hshape as (Hs & Hphi & HPhi & Hu & Hdm & Hds).
  unfold arr_add, arr_sub, arr_mul.
  do 3 run_cols (nrows x).
  run_mat_col (nrows x) (ncols x).
  run_col_mat (nrows x) (ncols x).
  run_same (nrows x) (ncols x).
  unfold Safecopy.bind at 1. unfold Safecopy.lift at 1.
  pose proof (safecopy_calc_P_shape x (Safecopy.constraint_model self)
                (Safecopy.beta self) (Safecopy.midpoint self) Hcm) as Sp.
  assert (Ep : forall r,
            get (snd (fst (Safecopy.calc_P x (Safecopy.constraint_model self)
                             (Safecopy.beta self) (Safecopy.midpoint self)))) r 0
            = Safecopy.probability x (Safecopy.constraint_model self)
                (Safecopy.beta self) (Safecopy.midpoint self) r)
    by reflexivity.
  destruct (Safecopy.calc_P x (Safecopy.constraint_model self)
              (Safecopy.beta self) (Safecopy.midpoint self))
    as [[mean prob] ci].
  cbn [fst snd] in Sp, Ep.
  run_cols (nrows x).
  destruct (safecopy_gradient_first_dimension_only x
              (Safecopy.constraint_model self) (Safecopy.beta self)
              (Safecopy.midpoint self) (Safecopy.lengthscale self) Hd Hcm)
    as (g & Eg & Sg & _).
  rewrite Eg. cbn [rbind].
  run_mat_col (nrows x) (ncols x).
  run_col_mat (nrows x) (ncols x).
  run_same (nrows x) (ncols x).
  exists c5, c8, g. split; [| split; [reflexivity |]].
  - destruct (any_isnan x).
    + reflexivity.
    + cbn. now rewrite app_nil_r.
  - intros r Hr. split.
    + rewrite Hg5, Hg1, Hg0, Hg, Ep by assumption. reflexivity.
    + intros k Hk.
      rewrite Hg8, Hg6, Hg7, Hg4, Hg2, Hg3, Hg5, Hg1, Hg0, Hg, Ep by assumption.
      reflexivity.
Qed.

End SafecopyGradient.

Lemma safecopy_sample_shaped (cm : option (Safecopy.GPRegressionRBF R)) :
  Safecopy.surrogate_shaped (H1 := Safecopy.sample_gpy) cm.
Proof. intros m points _. reflexivity. Qed.

Lemma safecopy_calc_gradient_of_P_first_column_only_witness :
  exists g,
    Safecopy.calc_gradient_of_P (H0 := sample_world)
      (H1 := Safecopy.sample_gpy) (row [0; 0]) None 1 0 1000 = Ok (Some g) /\
    shape g = (1%nat, 2%nat).
Proof.
  destruct (safecopy_calc_gradient_of_P_first_column_only
              (H0 := sample_world) (H1 := Safecopy.sample_gpy)
              (row [0; 0]) None None 1 0 1000 1 0 1000)
    as (g & g' & E & _ & Hs & _).
  - cbn. lia.
  - apply safecopy_sample_shaped.
  - apply safecopy_sample_shaped.
  - exists g. split; [exact E | exact Hs].
Defined.

Lemma safecopy_withGradients_prints_nan_and_goes_on_witness :
  exists f_acqu df_acqu,
    Safecopy._compute_acq_withGradients (H0 := sample_world)
      (H1 := Safecopy.sample_gpy)
      {| Safecopy.model := sample_primary;
         Safecopy.data_fusion_target_variable := None;
         Safecopy.data_fusion_data := None;
         Safecopy.jitter := Fin 0.01; Safecopy.variance := Fin 2;
         Safecopy.lengthscale := Fin 0.03; Safecopy.beta := Fin 0.025;
         Safecopy.midpoint := Fin 0;
         Safecopy.data_fusion_input_variables := Some [];
         Safecopy.constraint_model := None |}
      (row [NaN]) []
    = (Ok (f_acqu, df_acqu), [Safecopy.print_nan (row [NaN])]).
Proof.
  destruct (safecopy_withGradients_prints_nan_and_goes_on
              (H0 := sample_world) (H1 := Safecopy.sample_gpy)
              {| Safecopy.model := sample_primary;
                 Safecopy.data_fusion_target_variable := None;
                 Safecopy.data_fusion_data := None;
                 Safecopy.jitter := Fin 0.01; Safecopy.variance := Fin 2;
                 Safecopy.lengthscale := Fin 0.03; Safecopy.beta := Fin 0.025;
                 Safecopy.midpoint := Fin 0;
                 Safecopy.data_fusion_input_variables := Some [];
                 Safecopy.constraint_model := None |}
              (row [NaN]) [])
    as (f & df & g & E & _).
  - cbn. lia.
  - intros m points Hm. discriminate.
  - cbn. repeat split.
  - exists f, df. exact E.
Defined.

Section SafecopyConstructor.
Context {F : Type} `{Float64 F} `{World F} `{Safecopy.GPyRBF F}.

(** X19.  The constructor of the copy never returns when the input
    variables are left at their default [None]: with no data or an empty
    frame [len(None)] raises [TypeError]; with any other frame [GP_model]
    has already raised [KeyError].  Nothing is printed and GPy is not
    called. *)
Theorem safecopy_constructor_needs_input_variables
        (m : PrimaryModel F) (data : option (DataFrame F))
        (target : option string) (j ls var b mp : F)
        (log : list (Safecopy.event F)) :
  ((data = None \/ exists d, data = Some d /\ df_empty d = true) ->
   Safecopy.__init__ m data target j ls var b mp None log
   = (Raise TypeError, log)) /\
  ((exists d, data = Some d /\ df_empty d = false) ->
   Safecopy.__init__ m data target j ls var b mp None log
   = (Raise KeyError, log)).
Proof.
  split.
  - intros [-> | (d & -> & He)]; unfold Safecopy.__init__, Safecopy.GP_model.
    + reflexivity.
    + rewrite He. reflexivity.
  - intros (d & -> & He). unfold Safecopy.__init__, Safecopy.GP_model.
    rewrite He. reflexivity.
Qed.

(** X20.  Without data (or with an empty frame) and with a list of input
    variables that has not three elements, the constructor of the copy
    returns an instance whose auxiliary model is [None] and whose
    attributes are the arguments; it prints that it cannot plot and makes
    no call into GPy. *)
Theorem safecopy_constructor_without_data
        (m : PrimaryModel F) (data : option (DataFrame F))
        (target : option string) (j ls var b mp : F) (vars : list string)
        (log : list (Safecopy.event F)) :
  (data = None \/ exists d, data = Some d /\ df_empty d = true) ->
  List.length vars <> 3%nat ->
  exists self,
    Safecopy.__init__ m data target j ls var b mp (Some vars) log
    = (Ok self, log ++ [Safecopy.print_cannot_plot]) /\
    Safecopy.constraint_model self = None /\
    Safecopy.model self = m /\ Safecopy.jitter self = j /\
    Safecopy.lengthscale self = ls /\ Safecopy.variance self = var /\
    Safecopy.beta self = b /\ Safecopy.midpoint self = mp /\
    Safecopy.data_fusion_data self = data /\
    Safecopy.data_fusion_target_variable self = target /\
    Safecopy.data_fusion_input_variables self = Some vars.
Proof.
  intros Hdata Hlen.
  assert (EG : forall l, Safecopy.GP_model data target ls var (Some vars) l
                         = (Ok None, l)).
  { intros l. destruct Hdata as [-> | (d & -> & He)];
      unfold Safecopy.GP_model; [reflexivity | now rewrite He]. }
  unfold Safecopy.__init__.
  unfold Safecopy.bind at 1. rewrite EG.
  unfold Safecopy.bind at 1. unfold Safecopy.lift at 1.
  apply Nat.eqb_neq in Hlen. rewrite Hlen.
  eexists. split; [reflexivity |]. repeat split.
Qed.

(** X23.  With three input variables, the target 'dGmix (ev/f.u.)' or
    'Yellowness' and no data, the constructor of the copy calls [plot_P] on
    the plotting grid; the grid having at least one point, it returns an
    instance (with model [None]) and prints nothing. *)
Theorem safecopy_constructor_plots
        (m : PrimaryModel F) (target : string) (j ls var b mp : F)
        (vars : list string) (log : list (Safecopy.event F)) :
  List.length vars = 3%nat ->
  (target = "dGmix (ev/f.u.)"%string \/ target = "Yellowness"%string) ->
  (0 < nrows create_ternary_grid)%nat ->
  exists self,
    Safecopy.__init__ m None (Some target) j ls var b mp (Some vars) log
    = (Ok self, log) /\
    Safecopy.constraint_model self = None.
Proof.
  intros Hlen Ht Hgrid.
  assert (Eplot : forall dt, exists lo hi,
            Safecopy.plot_P None b dt mp = Ok (lo, hi)).
  { intros dt. unfold Safecopy.plot_P. cbn [Safecopy.calc_P].
    destruct (entries_cons (np_ones (nrows create_ternary_grid, 1%nat)))
      as (y & l & Ey); [exact Hgrid | cbn; lia |].
    unfold arr_min, arr_max.
    rewrite !(reduce_cons _ _ y l Ey). cbn [rbind]. eauto. }
  unfold Safecopy.__init__, Safecopy.GP_model.
  unfold Safecopy.bind at 1. unfold Safecopy.ret at 1.
  unfold Safecopy.bind at 1. unfold Safecopy.lift at 1.
  rewrite Hlen. cbn [Nat.eqb].
  destruct Ht as [-> | ->]; cbn [str_is String.eqb Ascii.eqb Bool.eqb].
  - destruct (Eplot "dft"%string) as (lo & hi & E).
    unfold Safecopy.bind, Safecopy.lift, Safecopy.ret. rewrite E.
    eexists. split; reflexivity.
  - destruct (Eplot "yellowness"%string) as (lo & hi & E).
    unfold Safecopy.bind, Safecopy.lift, Safecopy.ret. rewrite E.
    eexists. split; reflexivity.
Qed.

End SafecopyConstructor.

(** X21.  An instance of the copy without auxiliary model evaluates to the
    plain Expected Improvement: [_compute_acq] returns s*(u*Phi + phi) for
    every row (exact arithmetic). *)
Theorem safecopy_without_model_is_plain_EI `{World R} `{Safecopy.GPyRBF R}
        (self : Safecopy.AcquisitionEI_DFT R) (x : ndarray R) :
  Safecopy.constraint_model self = None ->
  primary_shaped (without_surrogate self) x ->
  exists acq,
    Safecopy._compute_acq self x = Ok acq /\
    shape acq = (nrows x, 1%nat) /\
    forall r, (r < nrows x)%nat ->
      get acq r 0 = EI (without_surrogate self) x r.
Proof.
  intros Hcm Hshape.
  unfold Safecopy._compute_acq, EI, primary_shaped in *.
  cbn [model jitter without_surrogate] in *.
  destruct (predict (Safecopy.model self) x) as [m s].
  destruct (get_quantiles (Safecopy.jitter self)
              (get_fmin (Safecopy.model self)) m s) as [[phi Phi] u].
  destruct Hshape as (Hs & Hphi & HPhi & Hu).
  rewrite Hcm. cbn [Safecopy.calc_P].
  assert (Hone : shape (np_ones (F := R) (nrows x, 1%nat)) = (nrows x, 1%nat))
    by reflexivity.
  unfold arr_add, arr_mul.
  do 4 run_cols (nrows x).
  exists c2. split; [reflexivity |]. split; [assumption |].
  intros r Hr. rewrite Hg2, Hg1, Hg0, Hg by assumption. cbn. ring.
Qed.

Lemma safecopy_constructor_needs_input_variables_witness :
  Safecopy.__init__ (H1 := Safecopy.sample_gpy) (H0 := sample_world)
    sample_primary None None 0.01 0.03 2 0.025 0 None []
  = (Raise TypeError, []).
Proof.
  apply (proj1 (safecopy_constructor_needs_input_variables
                  (H1 := Safecopy.sample_gpy) (H0 := sample_world)
                  sample_primary None None 0.01 0.03 2 0.025 0 [])).
  left. reflexivity.
Defined.

Lemma safecopy_constructor_without_data_witness :
  exists self,
    Safecopy.__init__ (H1 := Safecopy.sample_gpy) (H0 := sample_world)
      sample_primary None (Some "dGmix (ev/f.u.)"%string) 0.01 0.03 2 0.025 0
      (Some ["CsPbI"; "MAPbI"]%string) []
    = (Ok self, [Safecopy.print_cannot_plot]) /\
    Safecopy.constraint_model self = None.
Proof.
  destruct (safecopy_constructor_without_data
              (H1 := Safecopy.sample_gpy) (H0 := sample_world)
              sample_primary None (Some "dGmix (ev/f.u.)"%string)
              0.01 0.03 2 0.025 0 ["CsPbI"; "MAPbI"]%string [])
    as (self & E & Hcm & _).
  - left. reflexivity.
  - cbn. lia.
  - exists self. split; [exact E | exact Hcm].
Defined.

Lemma safecopy_constructor_plots_witness :
  exists self,
    Safecopy.__init__ (H1 := Safecopy.sample_gpy)
      (H0 := sample_world)
      sample_primary None (Some "Yellowness"%string) 0.01 0.03 2 0.025 0
      (Some ["CsPbI"; "MAPbI"; "FAPbI"]%string) []
    = (Ok self, []) /\
    Safecopy.constraint_model self = None.
Proof.
  apply (safecopy_constructor_plots
           (H1 := Safecopy.sample_gpy) (H0 := sample_world)
           sample_primary "Yellowness" 0.01 0.03 2 0.025 0
           ["CsPbI"; "MAPbI"; "FAPbI"]%string []
           eq_refl (or_intror eq_refl)).
  cbn. lia.
Defined.

Lemma safecopy_without_model_is_plain_EI_witness :
  exists acq,
    Safecopy._compute_acq (H0 := sample_world) (H1 := Safecopy.sample_gpy)
      {| Safecopy.model := sample_primary;
         Safecopy.data_fusion_target_variable := None;
         Safecopy.data_fusion_data := None;
         Safecopy.jitter := 0.01; Safecopy.variance := 2;
         Safecopy.lengthscale := 0.03; Safecopy.beta := 0.025;
         Safecopy.midpoint := 0;
         Safecopy.data_fusion_input_variables := Some [];
         Safecopy.constraint_model := None |}
      (row [0; 0]) = Ok acq /\
    shape acq = (1%nat, 1%nat).
Proof.
  destruct (@safecopy_without_model_is_plain_EI sample_world
              Safecopy.sample_gpy
              {| Safecopy.model := sample_primary;
                 Safecopy.data_fusion_target_variable := None;
                 Safecopy.data_fusion_data := None;
                 Safecopy.jitter := 0.01; Safecopy.variance := 2;
                 Safecopy.lengthscale := 0.03; Safecopy.beta := 0.025;
                 Safecopy.midpoint := 0;
                 Safecopy.data_fusion_input_variables := Some [];
                 Safecopy.constraint_model := None |}
              (row [0; 0]) eq_refl)
    as (acq & E & Hs & _).
  - cbn. repeat split.
  - exists acq. split; [exact E | exact Hs].
Defined.
